(** * question_rag: tagged-block corpus codec, ingestion and retrieval refinement

    A shallow embedding of [question_rag/ingestion.py] and
    [question_rag/agents/retrieval_tools.py].

    A Python [str] is modelled as the list of its Unicode code points.  The
    built-in string methods the two modules call ([splitlines], [strip],
    [rstrip], [startswith], [split], [join]) are written out with the
    character classes CPython uses.  Operations that can raise return a
    [result]; the external search backend is an oracle whose calls are
    recorded in a log. *)

From Stdlib Require Import String Ascii.
From Stdlib Require Import List NArith ZArith Lia Bool Arith.
From Stdlib Require Decimal DecimalNat.
Import ListNotations.

Set Implicit Arguments.

(* ================================================================== *)
(** * Python strings *)
(* ================================================================== *)

Definition char := N.
Definition str := list char.

(** String literals: the code points of an ASCII literal. *)
Definition lit (s : string) : str := map N_of_ascii (list_ascii_of_string s).

Fixpoint str_eqb (a b : str) : bool :=
  match a, b with
  | [], [] => true
  | x :: a', y :: b' => N.eqb x y && str_eqb a' b'
  | _, _ => false
  end.

(** Truthiness of a string or of a list: non-empty. *)
Definition truthy {A : Type} (l : list A) : bool :=
  match l with [] => false | _ :: _ => true end.

(** [x or y] on strings and lists. *)
Definition py_or {A : Type} (x y : list A) : list A :=
  if truthy x then x else y.

(** Code points for which [str.isspace] holds; [str.strip()] removes them. *)
Definition whitespace : list char :=
  [9; 10; 11; 12; 13; 28; 29; 30; 31; 32; 133; 160; 5760;
   8192; 8193; 8194; 8195; 8196; 8197; 8198; 8199; 8200; 8201; 8202;
   8232; 8233; 8239; 8287; 12288]%N.

(** Code points at which [str.splitlines] ends a line. *)
Definition linebreaks : list char :=
  [10; 11; 12; 13; 28; 29; 30; 133; 8232; 8233]%N.

Definition isspace (c : char) : bool := existsb (N.eqb c) whitespace.
Definition is_linebreak (c : char) : bool := existsb (N.eqb c) linebreaks.

Definition LF : char := 10%N.
Definition CR : char := 13%N.

Fixpoint lstrip_by (p : char -> bool) (s : str) : str :=
  match s with
  | [] => []
  | c :: t => if p c then lstrip_by p t else s
  end.

Definition rstrip_by (p : char -> bool) (s : str) : str :=
  rev (lstrip_by p (rev s)).

(** [s.strip()] *)
Definition strip (s : str) : str := rstrip_by isspace (lstrip_by isspace s).

(** [s.rstrip(chars)] *)
Definition rstrip (chars : str) (s : str) : str :=
  rstrip_by (fun c => existsb (N.eqb c) chars) s.

(** [s.startswith(prefix)] *)
Fixpoint startswith (prefix s : str) : bool :=
  match prefix, s with
  | [], _ => true
  | p :: prefix', c :: s' => N.eqb p c && startswith prefix' s'
  | _ :: _, [] => false
  end.

(** [s.splitlines()]: a line ends at a line-break character, CR LF counts
    as one break, and a final break opens no further line. *)
Fixpoint splitlines (s : str) : list str :=
  match s with
  | [] => []
  | c :: t =>
      if is_linebreak c then
        [] :: match t with
              | c' :: t' => if N.eqb c CR && N.eqb c' LF then splitlines t'
                            else splitlines t
              | [] => splitlines t
              end
      else
        match splitlines t with
        | [] => [[c]]
        | l :: ls => (c :: l) :: ls
        end
  end.

(** [s.split(sep)] for a one-character separator. *)
Fixpoint split (sep : char) (s : str) : list str :=
  match s with
  | [] => [[]]
  | c :: t =>
      if N.eqb c sep then [] :: split sep t
      else match split sep t with
           | [] => [[c]]
           | l :: ls => (c :: l) :: ls
           end
  end.

(** [sep.join(parts)] *)
Fixpoint join (sep : str) (parts : list str) : str :=
  match parts with
  | [] => []
  | x :: rest =>
      match rest with
      | [] => x
      | _ :: _ => x ++ sep ++ join sep rest
      end
  end.

(** [needle in s] on strings: substring test. *)
Fixpoint contains (needle s : str) : bool :=
  startswith needle s ||
  match s with
  | [] => false
  | _ :: t => contains needle t
  end.

(** [l[a:b]] and [l[:k]] with Python's clamping; [k] may be negative. *)
Definition slice {A : Type} (a b : nat) (l : list A) : list A :=
  skipn a (firstn b l).

Definition slice_to {A : Type} (k : Z) (l : list A) : list A :=
  if (0 <=? k)%Z then firstn (Z.to_nat k) l
  else firstn (length l - Z.to_nat (- k)) l.

(** [f"{n:03d}"] for a non-negative [n]. *)
Fixpoint uint_digits (u : Decimal.uint) : str :=
  match u with
  | Decimal.Nil => []
  | Decimal.D0 u => 48%N :: uint_digits u
  | Decimal.D1 u => 49%N :: uint_digits u
  | Decimal.D2 u => 50%N :: uint_digits u
  | Decimal.D3 u => 51%N :: uint_digits u
  | Decimal.D4 u => 52%N :: uint_digits u
  | Decimal.D5 u => 53%N :: uint_digits u
  | Decimal.D6 u => 54%N :: uint_digits u
  | Decimal.D7 u => 55%N :: uint_digits u
  | Decimal.D8 u => 56%N :: uint_digits u
  | Decimal.D9 u => 57%N :: uint_digits u
  end.

Definition format_d (n : nat) : str := uint_digits (Nat.to_uint n).

Definition format_03d (n : nat) : str :=
  let ds := format_d n in repeat 48%N (3 - length ds) ++ ds.

(* ================================================================== *)
(** * Exceptions *)
(* ================================================================== *)

Inductive exn : Type :=
| IndexError
| ValueError
| TypeError
| KeyError
| FileNotFoundError
| JSONDecodeError.

Inductive result (A : Type) : Type :=
| Ok (a : A)
| Raise (e : exn).

Arguments Ok {A} a.
Arguments Raise {A} e.

Definition bind {A B : Type} (r : result A) (k : A -> result B) : result B :=
  match r with
  | Ok a => k a
  | Raise e => Raise e
  end.

Notation "x <- e ;; k" := (bind e (fun x => k))
  (at level 61, e at next level, right associativity).

(** [l[i]] *)
Definition getitem {A : Type} (l : list A) (i : nat) : result A :=
  match nth_error l i with
  | Some x => Ok x
  | None => Raise IndexError
  end.

(** [l.index(x)] on a list of strings. *)
Fixpoint index (x : str) (l : list str) : result nat :=
  match l with
  | [] => Raise ValueError
  | y :: t => if str_eqb y x then Ok 0 else n <- index x t ;; Ok (S n)
  end.

(** [try: r  except ValueError: handler] *)
Definition except_ValueError {A : Type} (r handler : result A) : result A :=
  match r with
  | Raise ValueError => handler
  | _ => r
  end.

(* ================================================================== *)
(** * retrieval_tools.py: decoding one block *)
(* ================================================================== *)

(** The dict returned by [_parse_block], a Document without score. *)
Record Document : Type := mkDocument {
  id : str;
  main_concept : str;
  concepts : list str;
  text : str
}.

Definition UNKNOWN_ID : str := lit "UNKNOWN_ID".
Definition UNKNOWN : str := lit "UNKNOWN".
Definition SEP : str := lit "---".

(** The local helper [extract] of [_parse_block]. *)
Definition extract (bracket_line label default : str) : str :=
  let prefix := lit "[" ++ label ++ lit ":" in
  if startswith prefix bracket_line
  then strip (rstrip (lit "]") (skipn (length prefix) bracket_line))
  else default.

Definition _parse_block (raw : str) : result Document :=
  let lines := splitlines raw in
  if length lines <? 1 then
    Ok {| id := UNKNOWN_ID; main_concept := UNKNOWN; concepts := [];
          text := strip raw |}
  else
    id_ <- (if 0 <? length lines
            then l0 <- getitem lines 0 ;; Ok (extract l0 (lit "ID") UNKNOWN_ID)
            else Ok UNKNOWN_ID) ;;
    main_concept_ <- (if 1 <? length lines
                      then l1 <- getitem lines 1 ;;
                           Ok (extract l1 (lit "MAIN_CONCEPT") UNKNOWN)
                      else Ok UNKNOWN) ;;
    concepts_raw <- (if 2 <? length lines
                     then l2 <- getitem lines 2 ;;
                          Ok (extract l2 (lit "CONCEPTS") [])
                     else Ok []) ;;
    let concepts_ :=
      map strip (filter (fun c => truthy (strip c)) (split 59%N concepts_raw)) in
    sep_index <- except_ValueError (index SEP lines) (Ok (length lines)) ;;
    let question_lines := slice 4 sep_index lines in
    let question_text := py_or (strip (join [LF] question_lines)) (strip raw) in
    Ok {| id := id_; main_concept := main_concept_; concepts := concepts_;
          text := question_text |}.

(* ================================================================== *)
(** * retrieval_tools.py: queries against the search backend *)
(* ================================================================== *)

(** [dict.get(key, default)] and [getattr(obj, name, default)]: an absent
    key or attribute is [None]. *)
Definition get {A : Type} (field : option A) (default : A) : A :=
  match field with
  | Some v => v
  | None => default
  end.

(** One call of [rag.retrieval_query]: the query text and [top_k]. *)
Definition Call : Type := (str * Z)%type.

(** Code that talks to the backend: it may raise, and it extends the log
    of the calls issued so far. *)
Definition Rag (A : Type) : Type := list Call -> result A * list Call.

Definition ret {A : Type} (a : A) : Rag A := fun log => (Ok a, log).

Definition lift {A : Type} (r : result A) : Rag A := fun log => (r, log).

Definition rbind {A B : Type} (m : Rag A) (k : A -> Rag B) : Rag B :=
  fun log =>
    match m log with
    | (Ok a, log') => k a log'
    | (Raise e, log') => (Raise e, log')
    end.

Notation "x <~ e ;; k" := (rbind e (fun x => k))
  (at level 61, e at next level, right associativity).

Section Retrieval.

(** Retrieval scores are floats the code only carries along. *)
Variable Score : Type.

(** [str.lower], Unicode lower-casing. *)
Variable lower : str -> str.

(** One element of [response.contexts]. *)
Record Context : Type := mkContext {
  ctx_text : option str;
  ctx_score : Score
}.

(** The backend: the contexts it answers to a query text and a [top_k].
    Transport failures are outside the model. *)
Variable retrieval_query : str -> Z -> list Context.

Record QuestionHit : Type := mkQuestionHit {
  h_id : str;
  h_text : str;
  h_main_concept : str;
  h_concepts : list str;
  h_score : Score
}.

Definition rag_retrieval_query (text_ : str) (top_k : Z) : Rag (list Context) :=
  fun log => (Ok (retrieval_query text_ top_k), log ++ [(text_, top_k)]).

(** The loop [for ctx in contexts] of [search_questions]. *)
Fixpoint hits_loop (contexts : list Context) (hits : list QuestionHit)
  : result (list QuestionHit) :=
  match contexts with
  | [] => Ok hits
  | ctx :: rest =>
      let raw_text := py_or (get (ctx_text ctx) []) [] in
      let score := ctx_score ctx in
      parsed <- _parse_block raw_text ;;
      hits_loop rest
        (hits ++ [{| h_id := id parsed; h_text := text parsed;
                     h_main_concept := main_concept parsed;
                     h_concepts := concepts parsed; h_score := score |}])
  end.

Definition search_questions (query : str) (top_k : Z) : Rag (list QuestionHit) :=
  contexts <~ rag_retrieval_query query top_k ;;
  lift (hits_loop contexts []).

(** The condition of the filter loop of [search_questions_by_concept]. *)
Definition concept_matches (target : str) (h : QuestionHit) : bool :=
  let concepts_lower := map lower (py_or (h_concepts h) []) in
  let main_lower := lower (py_or (h_main_concept h) []) in
  str_eqb target main_lower || existsb (str_eqb target) concepts_lower.

Fixpoint filter_loop (target : str) (raw_hits filtered : list QuestionHit)
  : list QuestionHit :=
  match raw_hits with
  | [] => filtered
  | h :: rest =>
      if concept_matches target h
      then filter_loop target rest (filtered ++ [h])
      else filter_loop target rest filtered
  end.

Definition search_questions_by_concept (concept_ : str) (top_k : Z)
  : Rag (list QuestionHit) :=
  raw_hits <~ search_questions concept_ (top_k * 3) ;;
  let target := lower (strip concept_) in
  let filtered := filter_loop target raw_hits [] in
  ret (slice_to top_k (py_or filtered raw_hits)).

(** The loop of [get_question_by_id], leaving at the first match. *)
Fixpoint id_loop (qid : str) (hits : list QuestionHit) : option QuestionHit :=
  match hits with
  | [] => None
  | h :: rest =>
      if str_eqb (lower (strip (py_or (h_id h) []))) qid then Some h
      else id_loop qid rest
  end.

Definition get_question_by_id (question_id : str) : Rag (option QuestionHit) :=
  let qid := lower (strip question_id) in
  hits <~ search_questions question_id 10 ;;
  ret (id_loop qid hits).

End Retrieval.

(* ================================================================== *)
(** * ingestion.py *)
(* ================================================================== *)

(** ** Step 1: load *)

(** What [json.load] returns. *)
#[local] Set Warnings "-register-all".
Inductive json : Type :=
| JNull
| JBool (b : bool)
| JNumber (literal : str)
| JString (s : str)
| JArray (items : list json)
| JObject (members : list (str * json)).

(** The file at [INPUT_METADATA_PATH]: absent, or present with the outcome
    of parsing it as JSON ([None]: not well-formed JSON). *)
Inductive input_file : Type :=
| NoFile
| File (parsed : option json).

Fixpoint lookup (key : str) (members : list (str * json)) : option json :=
  match members with
  | [] => None
  | (k, v) :: rest => if str_eqb k key then Some v else lookup key rest
  end.

Definition is_JString (key : str) (v : json) : bool :=
  match v with
  | JString s => str_eqb s key
  | _ => false
  end.

(** [key in data] for a string [key]: key of a dict, element of a list,
    substring of a string; any other operand is not iterable. *)
Definition py_in (key : str) (data : json) : result bool :=
  match data with
  | JObject members =>
      Ok (match lookup key members with Some _ => true | None => false end)
  | JArray items => Ok (existsb (is_JString key) items)
  | JString s => Ok (contains key s)
  | JNull | JBool _ | JNumber _ => Raise TypeError
  end.

(** [data[key]] for a string [key]. *)
Definition subscript (data : json) (key : str) : result json :=
  match data with
  | JObject members =>
      match lookup key members with
      | Some v => Ok v
      | None => Raise KeyError
      end
  | _ => Raise TypeError
  end.

(** [isinstance(v, list)] *)
Definition isinstance_list (v : json) : bool :=
  match v with
  | JArray _ => true
  | _ => false
  end.

Definition load_raw_metadata (f : input_file) : result json :=
  match f with
  | NoFile => Raise FileNotFoundError
  | File parsed =>
      data <- match parsed with
              | Some v => Ok v
              | None => Raise JSONDecodeError
              end ;;
      absent <- (b <- py_in (lit "questions") data ;; Ok (negb b)) ;;
      invalid <- (if absent then Ok true
                  else v <- subscript data (lit "questions") ;;
                       Ok (negb (isinstance_list v))) ;;
      if invalid then Raise ValueError else Ok data
  end.

(** ** Step 2: normalize *)

(** The input dataset as [normalize_metadata] reads it: dicts whose keys
    may be absent ([None]); the score of a match is not read. *)
Record Match : Type := mkMatch { concept : option str }.

Record Item : Type := mkItem {
  question : option str;
  matches : option (list Match)
}.

Record RawMetadata : Type := mkRaw { questions : option (list Item) }.

(** A normalized dict, as written by [normalize_metadata] and read with
    [.get] by [build_corpus_text]. *)
Record Entry : Type := mkEntry {
  e_id : option str;
  e_text : option str;
  e_main_concept : option str;
  e_concepts : option (list str)
}.

Definition normalize_item (idx : nat) (item : Item) : Entry :=
  let q_text := strip (get (question item) []) in
  let matches_ := py_or (get (matches item) []) [] in
  let q_id := lit "q_" ++ format_03d idx in
  let '(main_concept_, concept_list) :=
    match matches_ with
    | m0 :: _ =>
        (get (concept m0) UNKNOWN,
         map (fun m => strip (get (concept m) []))
             (filter (fun m => truthy (get (concept m) []))
                     (slice_to 3 matches_)))
    | [] => (UNKNOWN, [])
    end in
  {| e_id := Some q_id; e_text := Some q_text;
     e_main_concept := Some main_concept_; e_concepts := Some concept_list |}.

(** The loop [for idx, item in enumerate(questions, start=1)]. *)
Fixpoint normalize_loop (idx : nat) (items : list Item) (normalized : list Entry)
  : list Entry :=
  match items with
  | [] => normalized
  | item :: rest =>
      normalize_loop (S idx) rest (normalized ++ [normalize_item idx item])
  end.

Definition normalize_metadata (raw : RawMetadata) : list Entry :=
  normalize_loop 1 (get (questions raw) []) [].

(** ** Step 3: corpus text *)

Definition block_of (e : Entry) : str :=
  let q_id := strip (get (e_id e) []) in
  let text_ := strip (get (e_text e) []) in
  let main_concept_ := strip (get (e_main_concept e) UNKNOWN) in
  let concepts_ := py_or (get (e_concepts e) []) [] in
  let concepts_str := join (lit "; ") (filter (fun c => truthy c) concepts_) in
  let header_lines :=
    [ lit "[ID: " ++ q_id ++ lit "]";
      lit "[MAIN_CONCEPT: " ++ main_concept_ ++ lit "]";
      lit "[CONCEPTS: " ++ concepts_str ++ lit "]";
      [];
      text_;
      [];
      lit "---" ] in
  join [LF] header_lines.

Fixpoint blocks_loop (entries : list Entry) (blocks : list str) : list str :=
  match entries with
  | [] => blocks
  | e :: rest => blocks_loop rest (blocks ++ [block_of e])
  end.

Definition build_corpus_text (entries : list Entry) : str :=
  strip (join [LF; LF] (blocks_loop entries [])) ++ [LF].

(** A Document seen as a normalized dict: every key present. *)
Definition entry_of (d : Document) : Entry :=
  {| e_id := Some (id d); e_text := Some (text d);
     e_main_concept := Some (main_concept d); e_concepts := Some (concepts d) |}.

(* ================================================================== *)
(** * Vocabulary of the specification *)
(* ================================================================== *)

(** The lines before the first line equal to [---]. *)
Fixpoint until_sep (lines : list str) : list str :=
  match lines with
  | [] => []
  | l :: rest => if str_eqb l SEP then [] else l :: until_sep rest
  end.

(** Lines 4 up to, and excluding, the first [---] line; to the end of the
    input when there is none. *)
Definition body_lines (raw : str) : list str :=
  skipn 4 (until_sep (splitlines raw)).

(** Only whitespace. *)
Definition blank (s : str) : bool := forallb isspace s.

Definition no_linebreak (s : str) : bool :=
  forallb (fun c => negb (is_linebreak c)) s.

(** Every line break of [s] is a line feed. *)
Definition LF_only (s : str) : bool :=
  forallb (fun c => negb (is_linebreak c) || N.eqb c LF) s.

Definition has_char (c : char) (s : str) : bool := existsb (N.eqb c) s.

Definition nonempty (s : str) : bool := truthy s.

(** The fragment of one Document: its block in [build_corpus_text]. *)
Definition encode (d : Document) : str := block_of (entry_of d).

(** The number an id [q_<digits>] carries. *)
Definition digit_step (acc : nat) (c : char) : nat := 10 * acc + (N.to_nat c - 48).

Definition id_number (s : str) : option nat :=
  if startswith (lit "q_") s then Some (fold_left digit_step (skipn 2 s) 0)
  else None.

(** The concepts of an item as the specification words them: the concept
    names of up to the first three matches, entries with an empty name
    skipped. *)
Definition spec_concepts (ms : list Match) : list str :=
  filter nonempty (map (fun m => get (concept m) []) (firstn 3 ms)).

(** The hits the concept filter keeps, in backend order. *)
Definition kept {Score : Type} (lower : str -> str) (concept_ : str)
  (raw_hits : list (QuestionHit Score)) : list (QuestionHit Score) :=
  filter (fun h => str_eqb (lower (h_main_concept h)) (lower (strip concept_))
                   || existsb (fun c => str_eqb (lower c) (lower (strip concept_)))
                              (h_concepts h))
         raw_hits.

(** The hit a context decodes to. *)
Definition hit_of {Score : Type} (ctx : Context Score) (d : Document)
  : QuestionHit Score :=
  {| h_id := id d; h_text := text d; h_main_concept := main_concept d;
     h_concepts := concepts d; h_score := ctx_score ctx |}.

(** The Document a fragment decodes to; decoding never raises, so the
    second branch is never taken. *)
Definition decoded (raw : str) : Document :=
  match _parse_block raw with
  | Ok d => d
  | Raise _ => {| id := UNKNOWN_ID; main_concept := UNKNOWN; concepts := [];
                  text := strip raw |}
  end.

(** The hit one context of the backend's answer decodes to. *)
Definition decode_context {Score : Type} (ctx : Context Score) : QuestionHit Score :=
  hit_of ctx (decoded (get (ctx_text ctx) [])).

(** [rawQuery]: the hits the backend's answer decodes to, in backend
    order. *)
Definition raw_query {Score : Type}
  (retrieval_query : str -> Z -> list (Context Score)) (q : str) (k : Z)
  : list (QuestionHit Score) :=
  map decode_context (retrieval_query q k).

(** The id test of the exact-id lookup. *)
Definition id_matches {Score : Type} (lower : str -> str) (question_id : str)
  (h : QuestionHit Score) : bool :=
  str_eqb (lower (strip (h_id h))) (lower (strip question_id)).

(** The concept names among the first three matches that are empty,
    absent, or carry a character that is not whitespace. *)
Definition names_not_blank (ms : list Match) : bool :=
  forallb (fun c => negb (nonempty c) || negb (blank c))
          (map (fun m => get (concept m) []) (firstn 3 ms)).

(** A string that opens with [[] and closes with [-]. *)
Definition bracketed (s : str) : Prop :=
  exists mid, s = lit "[" ++ mid ++ lit "-".

(** Non-empty and trimmed. *)
Definition tight (s : str) : Prop := s <> [] /\ strip s = s.

(** A field value that survives the bracket syntax: no line break, no
    leading or trailing whitespace, no closing bracket at its end. *)
Definition header_safe (s : str) : bool :=
  no_linebreak s && str_eqb (strip s) s && str_eqb (rstrip (lit "]") s) s.

(** A concept that survives the concepts line: non-empty, no line break,
    no semicolon, no leading or trailing whitespace. *)
Definition concept_safe (c : str) : bool :=
  nonempty c && no_linebreak c && negb (has_char 59%N c) && str_eqb (strip c) c.

(** Concepts that survive: each is safe, and the last does not end with a
    closing bracket. *)
Definition concepts_safe (cs : list str) : bool :=
  forallb concept_safe cs &&
  str_eqb (rstrip (lit "]") (last cs [])) (last cs []).

(** A text that survives: non-empty, trimmed, broken into lines by line
    feeds only, no line equal to [---]. *)
Definition text_safe (t : str) : bool :=
  nonempty t && str_eqb (strip t) t && LF_only t &&
  negb (existsb (fun l => str_eqb l SEP) (split LF t)).

(** The Documents the round trip is proved for. *)
Definition round_trippable (d : Document) : bool :=
  header_safe (id d) && header_safe (main_concept d) &&
  concepts_safe (concepts d) && text_safe (text d).


(** The test of the concept filter on one hit: its lower-cased main
    concept, or one of its lower-cased concepts, is the trimmed lower-cased
    concept asked for. *)
Definition tagged_with {Score : Type} (lower : str -> str) (concept_ : str)
  (h : QuestionHit Score) : bool :=
  str_eqb (lower (h_main_concept h)) (lower (strip concept_))
  || existsb (fun c => str_eqb (lower c) (lower (strip concept_))) (h_concepts h).

(** The Document a normalized dict is written as by [build_corpus_text]:
    absent keys at their defaults, id, main concept and text trimmed, empty
    concepts dropped. *)
Definition document_of (e : Entry) : Document :=
  {| id := strip (get (e_id e) []);
     main_concept := strip (get (e_main_concept e) UNKNOWN);
     concepts := filter nonempty (get (e_concepts e) []);
     text := strip (get (e_text e) []) |}.

(** A decimal digit. *)
Definition is_digit (c : char) : bool := N.leb 48 c && N.leb c 57.

(* ================================================================== *)
(** * Sample data *)
(* ================================================================== *)

(** [str.lower] on ASCII letters. *)
Definition ascii_lower (s : str) : str :=
  map (fun c => if N.leb 65 c && N.leb c 90 then (c + 32)%N else c) s.

(** A backend that answers every query with the first [top_k] contexts of
    one fixed ranking. *)
Definition ranked_backend {Score : Type} (ranking : list (Context Score))
  : str -> Z -> list (Context Score) :=
  fun _ top_k => firstn (Z.to_nat top_k) ranking.

Definition sample_document (n : nat) (mc : str) (cs : list str) : Document :=
  {| id := lit "q_" ++ format_03d n; main_concept := mc; concepts := cs;
     text := lit "What is audit risk?" |}.

Definition sample_context (d : Document) : Context Z :=
  {| ctx_text := Some (encode d); ctx_score := 1%Z |}.

(** Nine fragments, none tagged with risk. *)
Definition ranking_audit : list (Context Z) :=
  map (fun n => sample_context
                  (sample_document n (lit "Audit") [lit "Audit"; lit "Control"]))
      (seq 1 9).

(** Six fragments; the second has main concept [RISK], the fifth lists
    [Risk] among its concepts. *)
Definition ranking_mixed : list (Context Z) :=
  map sample_context
    [ sample_document 1 (lit "Audit") [lit "Audit"];
      sample_document 2 (lit "RISK") [lit "Control"];
      sample_document 3 (lit "Audit") [lit "Audit"; lit "Control"];
      sample_document 4 (lit "Control") [];
      sample_document 5 (lit "Audit") [lit "Audit"; lit "Risk"];
      sample_document 6 (lit "Audit") [lit "Risky"] ].

(** Eleven fragments with ids [q_002] to [q_011] and then [q_001]. *)
Definition ranking_ids : list (Context Z) :=
  map (fun n => sample_context (sample_document n (lit "Audit") [lit "Audit"]))
      (seq 2 10 ++ [1]).

(** Three fragments, the third with id [Q_001]. *)
Definition ranking_case : list (Context Z) :=
  map sample_context
    [ sample_document 7 (lit "Audit") [];
      sample_document 8 (lit "Audit") [];
      {| id := lit "Q_001"; main_concept := lit "Audit"; concepts := [];
         text := lit "What is audit risk?" |} ].

Definition sample_item (q : str) (names : list str) : Item :=
  {| question := Some q;
     matches := Some (map (fun n => {| concept := Some n |}) names) |}.

(** Twelve items; the first has five matches, the second none. *)
Definition sample_raw : RawMetadata :=
  {| questions :=
       Some (sample_item (lit " What is risk? ")
               [lit "Risk"; lit "Audit"; []; lit "Control"; lit "SSBR"]
             :: sample_item (lit "What is audit?") []
             :: map (fun _ => sample_item (lit "Why?") [lit "Audit"]) (seq 3 10)) |}.

Definition sample_documents : list Document :=
  [ {| id := lit "q_001"; main_concept := lit "Risk";
       concepts := [lit "Risk"; lit "Audit"]; text := lit "What is risk?" |};
    {| id := lit "q_002"; main_concept := UNKNOWN; concepts := [];
       text := lit "What is audit?" |} ].

(* ================================================================== *)
(** * Lemmas on strings *)
(* ================================================================== *)

Lemma str_eqb_eq (a b : str) : str_eqb a b = true <-> a = b.
Proof.
  revert b; induction a as [|x a IH]; intros [|y b]; simpl; split;
    try discriminate; try reflexivity.
  - intros H. apply andb_true_iff in H as [Hx Hab].
    apply N.eqb_eq in Hx. apply IH in Hab. congruence.
  - intros H. injection H as -> ->. rewrite N.eqb_refl. apply IH. reflexivity.
Qed.

Lemma str_eqb_refl (a : str) : str_eqb a a = true.
Proof. apply str_eqb_eq. reflexivity. Qed.

Lemma str_eqb_neq (a b : str) : str_eqb a b = false <-> a <> b.
Proof.
  split.
  - intros H E. apply str_eqb_eq in E. congruence.
  - intros H. destruct (str_eqb a b) eqn:E; [|reflexivity].
    apply str_eqb_eq in E. contradiction.
Qed.

Lemma str_eqb_sym (a b : str) : str_eqb a b = str_eqb b a.
Proof.
  destruct (str_eqb a b) eqn:E.
  - apply str_eqb_eq in E. subst. symmetry. apply str_eqb_refl.
  - symmetry. apply str_eqb_neq. apply str_eqb_neq in E. congruence.
Qed.

Lemma is_linebreak_isspace (c : char) : is_linebreak c = true -> isspace c = true.
Proof.
  unfold is_linebreak. intros H. apply existsb_exists in H as [x [Hin Hx]].
  apply N.eqb_eq in Hx. subst x. simpl in Hin.
  repeat (destruct Hin as [<- | Hin]; [reflexivity|]). contradiction.
Qed.

Lemma isspace_LF : isspace LF = true.
Proof. reflexivity. Qed.

(** ** lstrip, rstrip, strip *)

Lemma lstrip_by_length p (s : str) : length (lstrip_by p s) <= length s.
Proof.
  induction s as [|c s IH]; simpl; [lia|].
  destruct (p c); simpl; lia.
Qed.

Lemma lstrip_by_fixed p (s : str) :
  lstrip_by p s = s <-> match s with [] => True | c :: _ => p c = false end.
Proof.
  destruct s as [|c s]; simpl; [tauto|].
  destruct (p c) eqn:E; split; try congruence.
  intros H. pose proof (lstrip_by_length p s) as L. rewrite H in L. simpl in L. lia.
Qed.

Lemma lstrip_by_app p (s m : str) :
  lstrip_by p (s ++ m) =
  if forallb p s then lstrip_by p m else lstrip_by p s ++ m.
Proof.
  induction s as [|c s IH]; simpl; [reflexivity|].
  destruct (p c); simpl; [exact IH | reflexivity].
Qed.

Lemma lstrip_by_all p (s : str) : lstrip_by p s = [] <-> forallb p s = true.
Proof.
  induction s as [|c s IH]; simpl; [tauto|].
  destruct (p c); simpl; [exact IH|]. split; discriminate.
Qed.

Lemma rstrip_by_length p (s : str) : length (rstrip_by p s) <= length s.
Proof.
  unfold rstrip_by. rewrite length_rev.
  pose proof (lstrip_by_length p (rev s)) as L. rewrite length_rev in L. exact L.
Qed.

Lemma rstrip_by_snoc p (s : str) (c : char) :
  rstrip_by p (s ++ [c]) = if p c then rstrip_by p s else s ++ [c].
Proof.
  unfold rstrip_by. rewrite rev_app_distr. simpl.
  destruct (p c); [reflexivity|].
  simpl. rewrite rev_involutive. reflexivity.
Qed.

Lemma rstrip_by_nil p : rstrip_by p [] = [].
Proof. reflexivity. Qed.

Lemma rstrip_by_fixed p (s : str) :
  rstrip_by p s = s <-> match rev s with [] => True | c :: _ => p c = false end.
Proof.
  unfold rstrip_by. rewrite <- lstrip_by_fixed. split; intros H.
  - rewrite <- H at 2. rewrite rev_involutive. reflexivity.
  - rewrite H. apply rev_involutive.
Qed.

Lemma rstrip_by_cons p (c : char) (s : str) :
  rstrip_by p s = s -> p c = false -> rstrip_by p (c :: s) = c :: s.
Proof.
  intros Hs Hc. apply rstrip_by_fixed. apply rstrip_by_fixed in Hs.
  simpl. destruct (rev s) as [|x r]; simpl; assumption.
Qed.

Lemma rstrip_by_all p (s : str) : rstrip_by p s = [] <-> forallb p s = true.
Proof.
  unfold rstrip_by. split.
  - intros H. apply (f_equal (@rev char)) in H. rewrite rev_involutive in H.
    simpl in H. apply lstrip_by_all in H.
    rewrite forallb_forall in *. intros x Hx. apply H. apply -> in_rev. exact Hx.
  - intros H. assert (E : lstrip_by p (rev s) = []).
    { apply lstrip_by_all. rewrite forallb_forall in *. intros x Hx.
      apply H. apply in_rev. exact Hx. }
    rewrite E. reflexivity.
Qed.

Lemma strip_fixed (s : str) :
  strip s = s -> lstrip_by isspace s = s /\ rstrip_by isspace s = s.
Proof.
  unfold strip. intros H.
  assert (L : lstrip_by isspace s = s).
  { destruct s as [|c s]; [reflexivity|]. simpl in *.
    destruct (isspace c) eqn:E; [|reflexivity].
    pose proof (rstrip_by_length isspace (lstrip_by isspace s)) as L1.
    pose proof (lstrip_by_length isspace s) as L2.
    rewrite H in L1. simpl in L1. lia. }
  rewrite L in H. split; assumption.
Qed.

Lemma strip_of_fixed (s : str) :
  lstrip_by isspace s = s -> rstrip_by isspace s = s -> strip s = s.
Proof. unfold strip. intros -> ->. reflexivity. Qed.

Lemma strip_cons_space (c : char) (s : str) :
  isspace c = true -> strip (c :: s) = strip s.
Proof. unfold strip. simpl. intros ->. reflexivity. Qed.

Lemma strip_snoc_space (s : str) (c : char) :
  isspace c = true -> strip (s ++ [c]) = strip s.
Proof.
  intros Hc. unfold strip. rewrite lstrip_by_app. simpl. rewrite Hc.
  destruct (forallb isspace s) eqn:E.
  - apply lstrip_by_all in E. rewrite E. reflexivity.
  - rewrite rstrip_by_snoc, Hc. reflexivity.
Qed.

Lemma strip_blank (s : str) : strip s = [] <-> blank s = true.
Proof.
  unfold strip, blank. split.
  - intros H. apply rstrip_by_all in H.
    destruct (forallb isspace s) eqn:E; [reflexivity|].
    exfalso. induction s as [|c s IH]; simpl in *; [discriminate|].
    destruct (isspace c) eqn:Ec; simpl in *; [auto|].
    rewrite Ec in H. discriminate.
  - intros H. apply lstrip_by_all in H. rewrite H. reflexivity.
Qed.

Lemma strip_nil : strip [] = [].
Proof. reflexivity. Qed.

(** ** Decoding never raises *)

Lemma index_sep_spec (lines : list str) :
  (exists n, index SEP lines = Ok n /\ firstn n lines = until_sep lines) \/
  (index SEP lines = Raise ValueError /\ until_sep lines = lines).
Proof.
  induction lines as [|l rest IH]; simpl.
  - right. split; reflexivity.
  - destruct (str_eqb l SEP).
    + left. exists 0. split; reflexivity.
    + destruct IH as [[n [Hn Hf]] | [Hr Hu]].
      * left. exists (S n). rewrite Hn. simpl. rewrite Hf. split; reflexivity.
      * right. rewrite Hr, Hu. split; reflexivity.
Qed.

Lemma sep_index_slice (lines : list str) :
  exists n, except_ValueError (index SEP lines) (Ok (length lines)) = Ok n /\
            slice 4 n lines = skipn 4 (until_sep lines).
Proof.
  destruct (index_sep_spec lines) as [[n [Hn Hf]] | [Hr Hu]].
  - exists n. rewrite Hn. simpl. unfold slice. rewrite Hf. split; reflexivity.
  - exists (length lines). rewrite Hr. simpl. unfold slice.
    rewrite firstn_all, Hu. split; reflexivity.
Qed.

(** What [_parse_block] computes, exception-free, for an input with at
    least one line. *)
Lemma parse_block_lines (raw : str) :
  splitlines raw <> [] ->
  _parse_block raw =
  Ok {| id := match nth_error (splitlines raw) 0 with
              | Some l => extract l (lit "ID") UNKNOWN_ID
              | None => UNKNOWN_ID
              end;
        main_concept := match nth_error (splitlines raw) 1 with
                        | Some l => extract l (lit "MAIN_CONCEPT") UNKNOWN
                        | None => UNKNOWN
                        end;
        concepts :=
          map strip
            (filter (fun c => truthy (strip c))
               (split 59%N match nth_error (splitlines raw) 2 with
                           | Some l => extract l (lit "CONCEPTS") []
                           | None => []
                           end));
        text := py_or (strip (join [LF] (body_lines raw))) (strip raw) |}.
Proof.
  intros Hne. unfold _parse_block, body_lines.
  destruct (sep_index_slice (splitlines raw)) as [n [Hn Hs]].
  destruct (splitlines raw) as [|l0 [|l1 [|l2 rest]]] eqn:E;
    [contradiction| | |];
    cbn [length] in Hn;
    cbn [length Nat.ltb Nat.leb getitem nth_error bind];
    rewrite Hn; cbn [bind]; rewrite Hs; reflexivity.
Qed.

Lemma parse_block_no_lines (raw : str) :
  splitlines raw = [] ->
  _parse_block raw =
  Ok {| id := UNKNOWN_ID; main_concept := UNKNOWN; concepts := [];
        text := strip raw |}.
Proof. intros H. unfold _parse_block. rewrite H. reflexivity. Qed.

Lemma splitlines_nil (s : str) : splitlines s = [] <-> s = [].
Proof.
  split; [|intros ->; reflexivity].
  destruct s as [|c t]; [reflexivity|]. simpl.
  destruct (is_linebreak c); [discriminate|].
  destruct (splitlines t); discriminate.
Qed.

Lemma parse_block_total (raw : str) : exists d, _parse_block raw = Ok d.
Proof.
  destruct (splitlines raw) eqn:E.
  - eexists. apply parse_block_no_lines. exact E.
  - eexists. apply parse_block_lines. rewrite E. discriminate.
Qed.

Lemma blank_join (ls : list str) :
  forallb blank ls = true -> blank (join [LF] ls) = true.
Proof.
  induction ls as [|l ls IH]; simpl; [reflexivity|].
  intros H. apply andb_true_iff in H as [Hl Hls].
  destruct ls as [|l' ls']; [exact Hl|].
  unfold blank in *. rewrite forallb_app. rewrite Hl. simpl.
  apply IH. exact Hls.
Qed.

Lemma extract_default (l label default : str) :
  startswith (lit "[" ++ label ++ lit ":") l = false ->
  extract l label default = default.
Proof. unfold extract. intros ->. reflexivity. Qed.

Lemma until_sep_no_sep (lines : list str) :
  ~ In SEP lines -> until_sep lines = lines.
Proof.
  induction lines as [|l rest IH]; simpl; [reflexivity|].
  intros H. destruct (str_eqb l SEP) eqn:E.
  - apply str_eqb_eq in E. exfalso. apply H. left. exact E.
  - rewrite IH; [reflexivity|]. intros Hin. apply H. right. exact Hin.
Qed.

(* ================================================================== *)
(** * Claims on decoding *)
(* ================================================================== *)

(** C2 (decode totality and robustness).  For every input string
    [_parse_block] returns a Document and raises nothing.  A header line
    that is absent or does not start with its tag leaves its field at the
    default ([UNKNOWN_ID], [UNKNOWN], no concepts); the empty string decodes
    to all defaults; an input of a single line, such as a lone [[ID: ...]]
    line, has the default main concept and no concepts; and an input without
    a [---] line decodes with its text running to the end of the input. *)
Theorem parse_block_never_raises (raw : str) :
  exists d, _parse_block raw = Ok d /\
    ((forall l, nth_error (splitlines raw) 0 = Some l ->
                startswith (lit "[ID:") l = false) -> id d = UNKNOWN_ID) /\
    ((forall l, nth_error (splitlines raw) 1 = Some l ->
                startswith (lit "[MAIN_CONCEPT:") l = false) ->
     main_concept d = UNKNOWN) /\
    ((forall l, nth_error (splitlines raw) 2 = Some l ->
                startswith (lit "[CONCEPTS:") l = false) -> concepts d = []) /\
    (raw = [] ->
     d = {| id := UNKNOWN_ID; main_concept := UNKNOWN; concepts := [];
            text := [] |}) /\
    (length (splitlines raw) = 1 ->
     main_concept d = UNKNOWN /\ concepts d = []) /\
    (~ In SEP (splitlines raw) ->
     text d = py_or (strip (join [LF] (skipn 4 (splitlines raw)))) (strip raw)).
Proof.
  destruct (splitlines raw) as [|l0 rest] eqn:E.
  - eexists. split; [apply parse_block_no_lines; exact E|]. simpl.
    apply splitlines_nil in E. subst raw.
    repeat split; intros; try reflexivity; discriminate.
  - eexists. split; [apply parse_block_lines; rewrite E; discriminate|].
    rewrite E. cbn [id main_concept concepts text nth_error].
    repeat split.
    + intros H. apply (extract_default l0 (lit "ID")). apply H. reflexivity.
    + intros H. destruct rest as [|l1 rest]; cbn [nth_error]; [reflexivity|].
      apply (extract_default l1 (lit "MAIN_CONCEPT")). apply H. reflexivity.
    + intros H. destruct rest as [|l1 [|l2 rest]]; cbn [nth_error];
        [reflexivity | reflexivity |].
      rewrite (extract_default l2 (lit "CONCEPTS")); [reflexivity|].
      apply H. reflexivity.
    + intros ->. discriminate.
    + destruct rest; [reflexivity | discriminate].
    + destruct rest; [reflexivity | discriminate].
    + intros H. unfold body_lines. rewrite E.
      rewrite until_sep_no_sep by exact H. reflexivity.
Qed.

(** The three inputs the specification names. *)
Example parse_empty_string :
  _parse_block [] =
  Ok {| id := UNKNOWN_ID; main_concept := UNKNOWN; concepts := []; text := [] |}.
Proof. reflexivity. Qed.

Example parse_only_id_line :
  _parse_block (lit "[ID: q_001]") =
  Ok {| id := lit "q_001"; main_concept := UNKNOWN; concepts := [];
        text := lit "[ID: q_001]" |}.
Proof. vm_compute. reflexivity. Qed.

Example parse_missing_separator :
  _parse_block (lit "[ID: q_001]" ++ [LF] ++ lit "[MAIN_CONCEPT: Risk]" ++ [LF]
                ++ lit "[CONCEPTS: Risk; Audit ;; x]" ++ [LF] ++ [LF]
                ++ lit "What is risk?" ++ [LF])
  = Ok {| id := lit "q_001"; main_concept := lit "Risk";
          concepts := [lit "Risk"; lit "Audit"; lit "x"];
          text := lit "What is risk?" |}.
Proof. vm_compute. reflexivity. Qed.

(** C3, as stated, fails: the input [What is risk?] has one line and
    nothing at lines 4 and beyond, yet its decoded text is not that empty
    content but the whole raw input, with every other field at its
    default, which the claim reserves for inputs of zero lines. *)
Lemma text_extraction_counterexample :
  splitlines (lit "What is risk?") = [lit "What is risk?"] /\
  _parse_block (lit "What is risk?") =
  Ok {| id := UNKNOWN_ID; main_concept := UNKNOWN; concepts := [];
        text := lit "What is risk?" |} /\
  join [LF] (body_lines (lit "What is risk?")) = [] /\
  lit "What is risk?" <> join [LF] (body_lines (lit "What is risk?")).
Proof. vm_compute. repeat split; try reflexivity. discriminate. Qed.

(** C3 (decode text extraction), amended.  For an input with at least one
    line the decoded text is the trimmed newline-join of lines 4 up to,
    and excluding, the first line equal to [---] (to the end of the input
    when there is none) whenever that is not blank, and the trimmed whole
    raw input otherwise.  An input with zero lines is the empty string; its
    text is the raw input and the other fields take their defaults. *)
Theorem parse_block_text (raw : str) :
  (splitlines raw <> [] ->
   exists d, _parse_block raw = Ok d /\
     text d = if blank (join [LF] (body_lines raw)) then strip raw
              else strip (join [LF] (body_lines raw))) /\
  (splitlines raw = [] ->
   raw = [] /\
   _parse_block raw =
   Ok {| id := UNKNOWN_ID; main_concept := UNKNOWN; concepts := [];
         text := raw |}).
Proof.
  split.
  - intros Hne. eexists. split; [apply parse_block_lines; exact Hne|].
    cbn [text]. unfold py_or.
    destruct (blank (join [LF] (body_lines raw))) eqn:B.
    + apply strip_blank in B. rewrite B. reflexivity.
    + destruct (strip (join [LF] (body_lines raw))) eqn:S; [|reflexivity].
      apply strip_blank in S. congruence.
  - intros H. apply splitlines_nil in H. subst raw. split; reflexivity.
Qed.

Lemma parse_block_text_witness :
  splitlines (lit "[ID: q_001]") <> [] /\
  exists d, _parse_block (lit "[ID: q_001]") = Ok d /\
    text d = if blank (join [LF] (body_lines (lit "[ID: q_001]")))
             then strip (lit "[ID: q_001]")
             else strip (join [LF] (body_lines (lit "[ID: q_001]"))).
Proof.
  assert (H : splitlines (lit "[ID: q_001]") <> []) by (vm_compute; discriminate).
  split; [exact H | exact (proj1 (parse_block_text (lit "[ID: q_001]")) H)].
Defined.

(** C10 (decode fallback for blank bodies).  When the input has at least
    one line and its lines from index 4 up to the first [---] line are
    absent or all blank, the decoded text is the whole raw input trimmed,
    header lines included, rather than the empty body; it is non-empty
    unless the raw input is blank.  For every input, the decoded text is
    empty only when the whole raw input is whitespace. *)
Theorem parse_block_blank_body (raw : str) :
  (splitlines raw <> [] ->
   forallb blank (body_lines raw) = true ->
   exists d, _parse_block raw = Ok d /\ text d = strip raw /\
             (blank raw = false -> text d <> [])) /\
  (forall d, _parse_block raw = Ok d -> text d = [] -> blank raw = true).
Proof.
  split.
  - intros Hne Hb. eexists. split; [apply parse_block_lines; exact Hne|].
    cbn [text]. apply blank_join in Hb. apply strip_blank in Hb.
    rewrite Hb. unfold py_or. simpl. split; [reflexivity|].
    intros Hnb Hs. apply strip_blank in Hs. congruence.
  - intros d Hd Ht. destruct (splitlines raw) eqn:E.
    + apply splitlines_nil in E. subst raw. reflexivity.
    + rewrite parse_block_lines in Hd by (rewrite E; discriminate).
      injection Hd as <-. cbn [text] in Ht. unfold py_or in Ht.
      destruct (strip (join [LF] (body_lines raw))); [|discriminate].
      simpl in Ht. apply strip_blank. exact Ht.
Qed.

(** The fragment of a Document with empty text: header lines, then only
    blank lines up to [---]. *)
Lemma parse_block_blank_body_witness :
  let raw := encode {| id := lit "q_001"; main_concept := lit "Risk";
                       concepts := []; text := [] |} in
  splitlines raw <> [] /\ forallb blank (body_lines raw) = true /\
  exists d, _parse_block raw = Ok d /\ text d = strip raw /\
            (blank raw = false -> text d <> []).
Proof.
  intros raw.
  assert (H1 : splitlines raw <> []) by (vm_compute; discriminate).
  assert (H2 : forallb blank (body_lines raw) = true) by (vm_compute; reflexivity).
  split; [exact H1 | split; [exact H2 |]].
  exact (proj1 (parse_block_blank_body raw) H1 H2).
Defined.

(* ================================================================== *)
(** * Claims on the retrieval refinement layer *)
(* ================================================================== *)

Lemma py_or_nil {A : Type} (x : list A) : py_or x [] = x.
Proof. destruct x; reflexivity. Qed.

Lemma parse_block_decoded (raw : str) : _parse_block raw = Ok (decoded raw).
Proof.
  unfold decoded. destruct (parse_block_total raw) as [d ->]. reflexivity.
Qed.

Section RetrievalFacts.

Variable Score : Type.
Variable lower : str -> str.
Variable retrieval_query : str -> Z -> list (Context Score).

(** The backend honours the limit it is given. *)
Hypothesis backend_limit :
  forall q k, length (retrieval_query q k) <= Z.to_nat k.

Lemma hits_loop_ok (contexts : list (Context Score)) (hits : list (QuestionHit Score)) :
  hits_loop contexts hits = Ok (hits ++ map decode_context contexts).
Proof.
  revert hits. induction contexts as [|ctx rest IH]; intros hits; simpl.
  - rewrite app_nil_r. reflexivity.
  - rewrite py_or_nil, parse_block_decoded. simpl. rewrite IH.
    rewrite <- app_assoc. reflexivity.
Qed.

Lemma search_questions_ok (query : str) (top_k : Z) (log : list Call) :
  search_questions retrieval_query query top_k log =
  (Ok (raw_query retrieval_query query top_k), log ++ [(query, top_k)]).
Proof.
  unfold search_questions, rbind, rag_retrieval_query, lift.
  rewrite hits_loop_ok. reflexivity.
Qed.

Lemma filter_loop_ok (target : str) (raw_hits filtered : list (QuestionHit Score)) :
  filter_loop lower target raw_hits filtered =
  filtered ++ filter (concept_matches lower target) raw_hits.
Proof.
  revert filtered. induction raw_hits as [|h rest IH]; intros filtered; simpl.
  - rewrite app_nil_r. reflexivity.
  - destruct (concept_matches lower target h); rewrite IH.
    + rewrite <- app_assoc. reflexivity.
    + reflexivity.
Qed.

Lemma concept_matches_kept (concept_ : str) (raw_hits : list (QuestionHit Score)) :
  filter (concept_matches lower (lower (strip concept_))) raw_hits =
  kept lower concept_ raw_hits.
Proof.
  unfold kept. apply filter_ext. intros h. unfold concept_matches.
  rewrite !py_or_nil. rewrite (str_eqb_sym (lower (strip concept_))).
  f_equal. induction (h_concepts h) as [|c cs IH]; simpl; [reflexivity|].
  rewrite IH, (str_eqb_sym (lower (strip concept_))). reflexivity.
Qed.

Lemma id_loop_find (question_id : str) (hits : list (QuestionHit Score)) :
  id_loop lower (lower (strip question_id)) hits = find (id_matches lower question_id) hits.
Proof.
  induction hits as [|h rest IH]; simpl; [reflexivity|].
  unfold id_matches at 1. rewrite py_or_nil.
  destruct (str_eqb _ _); [reflexivity | exact IH].
Qed.

Lemma find_first {A : Type} (p : A -> bool) (l : list A) (x : A) :
  find p l = Some x ->
  exists pre post, l = pre ++ x :: post /\ p x = true /\
                   forallb (fun y => negb (p y)) pre = true.
Proof.
  induction l as [|y l IH]; simpl; [discriminate|].
  destruct (p y) eqn:E.
  - intros H. injection H as <-. exists [], l. repeat split. exact E.
  - intros H. destruct (IH H) as [pre [post [-> [Hx Hpre]]]].
    exists (y :: pre), post. simpl. rewrite E. repeat split; assumption.
Qed.

Lemma find_none {A : Type} (p : A -> bool) (l : list A) :
  find p l = None <-> forallb (fun y => negb (p y)) l = true.
Proof.
  induction l as [|y l IH]; simpl; [tauto|].
  destruct (p y); simpl; [split; discriminate | exact IH].
Qed.

(** C4 (concept search).  [search_questions_by_concept concept top_k]
    issues exactly one backend query, the raw concept string with limit
    [top_k * 3].  When the filter keeps a hit, the result is the kept hits
    (lower-cased main concept equal to the trimmed lower-cased concept, or
    some lower-cased concept equal to it) in backend order, truncated to
    [top_k]; when it keeps none, the result is the first [top_k] raw hits;
    and the result is non-empty whenever the raw hits are. *)
Theorem concept_search (concept_ : str) (top_k : Z) (log : list Call) :
  let raw_hits := raw_query retrieval_query concept_ (top_k * 3) in
  exists hits,
    search_questions_by_concept lower retrieval_query concept_ top_k log =
    (Ok hits, log ++ [(concept_, (top_k * 3)%Z)]) /\
    (kept lower concept_ raw_hits <> [] ->
     hits = firstn (Z.to_nat top_k) (kept lower concept_ raw_hits)) /\
    (kept lower concept_ raw_hits = [] ->
     hits = firstn (Z.to_nat top_k) raw_hits) /\
    (raw_hits <> [] -> hits <> []).
Proof.
  intros raw_hits.
  unfold search_questions_by_concept, rbind.
  rewrite search_questions_ok. fold raw_hits. unfold ret.
  rewrite filter_loop_ok, concept_matches_kept. simpl app at 1.
  eexists. split; [reflexivity|].
  assert (Hlen : length raw_hits <= Z.to_nat (top_k * 3)).
  { unfold raw_hits, raw_query. rewrite length_map. apply backend_limit. }
  assert (Hslice : forall l : list (QuestionHit Score),
             length l <= length raw_hits ->
             slice_to top_k l = firstn (Z.to_nat top_k) l).
  { intros l Hl. unfold slice_to. destruct (0 <=? top_k)%Z eqn:E; [reflexivity|].
    apply Z.leb_gt in E. assert (length l = 0) as L0 by lia.
    destruct l; [|discriminate]. rewrite !firstn_nil. reflexivity. }
  split; [|split].
  - intros Hk.
    assert (Hor : py_or (kept lower concept_ raw_hits) raw_hits =
                  kept lower concept_ raw_hits).
    { unfold py_or. destruct (kept lower concept_ raw_hits);
        [contradiction | reflexivity]. }
    rewrite Hor. apply Hslice. unfold kept. apply filter_length_le.
  - intros Hk. rewrite Hk. simpl. apply Hslice. lia.
  - intros Hraw.
    assert (Hpos : (0 < top_k)%Z).
    { destruct raw_hits; [contradiction|]. simpl in Hlen. lia. }
    assert (Hor : py_or (kept lower concept_ raw_hits) raw_hits <> []).
    { unfold py_or. destruct (kept lower concept_ raw_hits) eqn:K;
        simpl; [exact Hraw | discriminate]. }
    unfold slice_to. destruct (0 <=? top_k)%Z eqn:E; [|apply Z.leb_gt in E; lia].
    destruct (py_or (kept lower concept_ raw_hits) raw_hits); [contradiction|].
    destruct (Z.to_nat top_k) eqn:N; [lia|]. simpl. discriminate.
Qed.

Lemma find_at_first {A : Type} (p : A -> bool) (pre post : list A) (x : A) :
  forallb (fun y => negb (p y)) pre = true -> p x = true ->
  find p (pre ++ x :: post) = Some x.
Proof.
  intros Hpre Hx. induction pre as [|y pre IH]; simpl.
  - rewrite Hx. reflexivity.
  - simpl in Hpre. apply andb_true_iff in Hpre as [Hy Hpre].
    apply negb_true_iff in Hy. rewrite Hy. apply IH. exact Hpre.
Qed.

(** C5 (exact-id lookup).  [get_question_by_id question_id] issues exactly
    one backend query, the id string with limit 10, which yields at most
    10 candidates.  Its result is [Some h] exactly when [h] is the first
    candidate in backend order whose decoded id, trimmed and lower-cased,
    equals the trimmed lower-cased query id: such a candidate is always
    returned, and nothing else is.  Its result is [None], nothing being
    raised, exactly when no candidate matches, whatever the backend would
    rank beyond those candidates. *)
Theorem id_lookup (question_id : str) (log : list Call) :
  let candidates := raw_query retrieval_query question_id 10 in
  exists r,
    get_question_by_id lower retrieval_query question_id log =
    (Ok r, log ++ [(question_id, 10%Z)]) /\
    length candidates <= 10 /\
    (forall h, r = Some h <->
       exists pre post, candidates = pre ++ h :: post /\
         id_matches lower question_id h = true /\
         forallb (fun y => negb (id_matches lower question_id y)) pre = true) /\
    (r = None <->
     forallb (fun y => negb (id_matches lower question_id y)) candidates = true).
Proof.
  intros candidates.
  unfold get_question_by_id, rbind.
  rewrite search_questions_ok. fold candidates. unfold ret.
  rewrite id_loop_find.
  eexists. split; [reflexivity|]. split; [|split].
  - unfold candidates, raw_query. rewrite length_map.
    apply (backend_limit question_id 10).
  - intros h. split.
    + intros Hh. apply find_first. exact Hh.
    + intros [pre [post [-> [Hm Hpre]]]]. apply find_at_first; assumption.
  - apply find_none.
Qed.

End RetrievalFacts.

(* ================================================================== *)
(** * Claims on ingestion *)
(* ================================================================== *)

(** ** Ids *)

Lemma fold_digits_acc (u : Decimal.uint) (acc : nat) :
  fold_left digit_step (uint_digits u) acc = Nat.of_uint_acc u acc.
Proof.
  revert acc. induction u; intros acc; simpl; try reflexivity;
    rewrite IHu; f_equal; unfold digit_step; rewrite Nat.tail_mul_spec;
    simpl; lia.
Qed.

Lemma fold_digits_zeros (k : nat) (ds : str) :
  fold_left digit_step (repeat 48%N k ++ ds) 0 = fold_left digit_step ds 0.
Proof. induction k as [|k IH]; simpl; [reflexivity | exact IH]. Qed.

Lemma id_number_format (n : nat) : id_number (lit "q_" ++ format_03d n) = Some n.
Proof.
  unfold id_number. change (lit "q_") with [113%N; 95%N]. simpl.
  unfold format_03d, format_d. rewrite fold_digits_zeros, fold_digits_acc.
  f_equal. apply DecimalNat.Unsigned.of_to.
Qed.

(** ** Normalize *)

Lemma normalize_loop_app (idx : nat) (items : list Item) (acc : list Entry) :
  normalize_loop idx items acc = acc ++ normalize_loop idx items [].
Proof.
  revert idx acc. induction items as [|item rest IH]; intros idx acc; simpl.
  - rewrite app_nil_r. reflexivity.
  - rewrite (IH (S idx) (acc ++ [normalize_item idx item])).
    rewrite (IH (S idx) [normalize_item idx item]).
    rewrite <- app_assoc. reflexivity.
Qed.

Lemma normalize_loop_cons (idx : nat) (item : Item) (rest : list Item) :
  normalize_loop idx (item :: rest) [] =
  normalize_item idx item :: normalize_loop (S idx) rest [].
Proof. simpl. rewrite normalize_loop_app. reflexivity. Qed.

Lemma normalize_loop_length (idx : nat) (items : list Item) :
  length (normalize_loop idx items []) = length items.
Proof.
  revert idx. induction items as [|item rest IH]; intros idx; [reflexivity|].
  rewrite normalize_loop_cons. simpl. rewrite IH. reflexivity.
Qed.

Lemma normalize_loop_nth (idx : nat) (items : list Item) (i : nat) :
  nth_error (normalize_loop idx items []) i =
  option_map (normalize_item (idx + i)) (nth_error items i).
Proof.
  revert idx i. induction items as [|item rest IH]; intros idx i.
  - destruct i; reflexivity.
  - rewrite normalize_loop_cons. destruct i as [|i]; simpl.
    + rewrite Nat.add_0_r. reflexivity.
    + rewrite IH. replace (S idx + i) with (idx + S i) by lia. reflexivity.
Qed.

Lemma normalize_metadata_nth (raw : RawMetadata) (i : nat) :
  nth_error (normalize_metadata raw) i =
  option_map (normalize_item (S i)) (nth_error (get (questions raw) []) i).
Proof. unfold normalize_metadata. apply (normalize_loop_nth 1). Qed.

Lemma slice_to_3 {A : Type} (l : list A) : slice_to 3 l = firstn 3 l.
Proof. reflexivity. Qed.

Lemma filter_map_get (ms : list Match) :
  map (fun m => strip (get (concept m) []))
      (filter (fun m => truthy (get (concept m) [])) ms) =
  map strip (filter nonempty (map (fun m => get (concept m) []) ms)).
Proof.
  induction ms as [|m ms IH]; simpl; [reflexivity|].
  unfold nonempty at 1. destruct (truthy (get (concept m) [])); simpl;
    rewrite IH; reflexivity.
Qed.

(** C6, as stated, fails: the concept names of an item are recorded
    trimmed, so for a match named [" A "] the recorded concepts are not the
    concept names of the matches (while the main concept keeps the name
    untrimmed). *)
Lemma normalize_counterexample :
  normalize_metadata
    {| questions := Some [ {| question := Some (lit "Q?");
                              matches := Some [ {| concept := Some (lit " A ") |} ] |} ] |}
  = [ {| e_id := Some (lit "q_001"); e_text := Some (lit "Q?");
         e_main_concept := Some (lit " A ");
         e_concepts := Some [lit "A"] |} ] /\
  spec_concepts [ {| concept := Some (lit " A ") |} ] = [lit " A "] /\
  [lit "A"] <> spec_concepts [ {| concept := Some (lit " A ") |} ].
Proof. vm_compute. repeat split; try reflexivity. discriminate. Qed.

(** C6 (normalize postcondition), amended.  [normalize_metadata] yields
    one record per input item, in input order; the record at 1-based
    position [i] has id [q_] followed by [i] zero-padded to three digits,
    an id that carries the number [i] (so ids increase strictly with the
    position), and the trimmed question as text.  An item without matches
    has main concept [UNKNOWN] and no concepts.  An item with matches has
    as main concept the concept of its first match ([UNKNOWN] when that
    match carries none), taken as is and without re-sorting, and as
    concepts the trimmed concept names of up to its first three matches
    in original order, entries with an empty or absent name skipped; this
    last part is stated for items none of whose concept names is
    whitespace only. *)
Theorem normalize_postcondition (raw : RawMetadata) :
  let items := get (questions raw) [] in
  let out := normalize_metadata raw in
  length out = length items /\
  (forall i item, nth_error items i = Some item ->
     exists e, nth_error out i = Some e /\
       e_id e = Some (lit "q_" ++ format_03d (S i)) /\
       id_number (lit "q_" ++ format_03d (S i)) = Some (S i) /\
       e_text e = Some (strip (get (question item) [])) /\
       (get (matches item) [] = [] ->
        e_main_concept e = Some UNKNOWN /\ e_concepts e = Some []) /\
       (forall m ms, get (matches item) [] = m :: ms ->
          e_main_concept e = Some (get (concept m) UNKNOWN) /\
          (names_not_blank (m :: ms) = true ->
           e_concepts e = Some (map strip (spec_concepts (m :: ms)))))) /\
  (forall i j ei ej ni nj,
     i < j -> nth_error out i = Some ei -> nth_error out j = Some ej ->
     option_map id_number (e_id ei) = Some (Some ni) ->
     option_map id_number (e_id ej) = Some (Some nj) -> ni < nj).
Proof.
  intros items out. split; [|split].
  - unfold out, normalize_metadata. apply normalize_loop_length.
  - intros i item Hi. unfold out. rewrite normalize_metadata_nth. fold items.
    rewrite Hi. simpl. eexists. split; [reflexivity|].
    unfold normalize_item. rewrite py_or_nil.
    destruct (get (matches item) []) as [|m ms] eqn:M;
      cbn [e_id e_text e_main_concept e_concepts].
    + split; [reflexivity|]. split; [apply id_number_format|].
      split; [reflexivity|]. split; [split; reflexivity|].
      intros m ms H. discriminate.
    + split; [reflexivity|]. split; [apply id_number_format|].
      split; [reflexivity|]. split; [intros H; discriminate|].
      intros m' ms' H. injection H as <- <-. split; [reflexivity|].
      intros _. rewrite slice_to_3, filter_map_get. reflexivity.
  - intros i j ei ej ni nj Hij Hi Hj Hni Hnj. unfold out in *.
    rewrite normalize_metadata_nth in Hi, Hj.
    destruct (nth_error (get (questions raw) []) i); [|discriminate].
    destruct (nth_error (get (questions raw) []) j); [|discriminate].
    simpl in Hi, Hj. injection Hi as <-. injection Hj as <-.
    unfold normalize_item in Hni, Hnj.
    destruct (py_or (get (matches i0) []) []); destruct (py_or (get (matches i1) []) []);
      cbn [e_id option_map] in Hni, Hnj;
      rewrite id_number_format in Hni, Hnj; injection Hni as <-; injection Hnj as <-; lia.
Qed.

(** ** The concepts invariant *)

Lemma lstrip_by_idem p (s : str) : lstrip_by p (lstrip_by p s) = lstrip_by p s.
Proof.
  induction s as [|c s IH]; simpl; [reflexivity|].
  destruct (p c) eqn:E; [exact IH|]. simpl. rewrite E. reflexivity.
Qed.

Lemma rstrip_by_idem p (s : str) : rstrip_by p (rstrip_by p s) = rstrip_by p s.
Proof.
  unfold rstrip_by. rewrite rev_involutive, lstrip_by_idem. reflexivity.
Qed.

Lemma lstrip_by_suffix p (s : str) : exists pre, s = pre ++ lstrip_by p s.
Proof.
  induction s as [|c s [pre IH]]; simpl; [exists []; reflexivity|].
  destruct (p c).
  - exists (c :: pre). simpl. rewrite <- IH. reflexivity.
  - exists []. reflexivity.
Qed.

Lemma rstrip_by_prefix p (s : str) : exists suf, s = rstrip_by p s ++ suf.
Proof.
  unfold rstrip_by. destruct (lstrip_by_suffix p (rev s)) as [pre H].
  exists (rev pre). rewrite <- rev_app_distr, <- H, rev_involutive. reflexivity.
Qed.

Lemma strip_idem (s : str) : strip (strip s) = strip s.
Proof.
  apply strip_of_fixed.
  - unfold strip. apply lstrip_by_fixed.
    destruct (rstrip_by_prefix isspace (lstrip_by isspace s)) as [suf H].
    destruct (rstrip_by isspace (lstrip_by isspace s)) as [|c t]; [exact I|].
    pose proof (lstrip_by_idem isspace s) as F. apply lstrip_by_fixed in F.
    rewrite H in F. exact F.
  - unfold strip. apply rstrip_by_idem.
Qed.

Lemma truthy_nonempty {A : Type} (l : list A) : truthy l = true <-> l <> [].
Proof. destruct l; simpl; split; congruence. Qed.

Lemma parse_block_concepts_nonempty (raw : str) (d : Document) (c : str) :
  _parse_block raw = Ok d -> In c (concepts d) -> strip c <> [].
Proof.
  intros Hd Hc.
  assert (G : forall l, In c (map strip (filter (fun x => truthy (strip x)) l)) ->
                        strip c <> []).
  { intros l Hin. apply in_map_iff in Hin as [x [<- Hx]].
    apply filter_In in Hx as [_ Hx]. rewrite strip_idem.
    apply truthy_nonempty. exact Hx. }
  destruct (splitlines raw) eqn:E.
  - rewrite parse_block_no_lines in Hd by exact E. injection Hd as <-.
    contradiction.
  - rewrite parse_block_lines in Hd by (rewrite E; discriminate).
    injection Hd as <-. cbn [concepts] in Hc. eapply G. exact Hc.
Qed.

Lemma normalize_item_concepts (idx : nat) (item : Item) :
  length (get (e_concepts (normalize_item idx item)) []) <= 3.
Proof.
  unfold normalize_item. destruct (py_or (get (matches item) []) []) as [|m ms];
    cbn [e_concepts get]; [simpl; lia|].
  rewrite length_map, slice_to_3.
  etransitivity; [apply filter_length_le|]. apply firstn_le_length.
Qed.

Lemma normalize_metadata_In (raw : RawMetadata) (e : Entry) :
  In e (normalize_metadata raw) -> exists idx item, e = normalize_item idx item.
Proof.
  intros H. apply In_nth_error in H as [i Hi].
  rewrite normalize_metadata_nth in Hi.
  destruct (nth_error (get (questions raw) []) i) as [item|]; [|discriminate].
  simpl in Hi. injection Hi as <-. eauto.
Qed.

(** C7, as stated, fails: decoding puts no bound on the number of
    concepts; a fragment whose [CONCEPTS] line lists four names decodes to
    four concepts. *)
Lemma concepts_invariant_counterexample :
  _parse_block (lit "[ID: q_001]" ++ [LF] ++ lit "[MAIN_CONCEPT: a]" ++ [LF]
                ++ lit "[CONCEPTS: a; b; c; d]")
  = Ok {| id := lit "q_001"; main_concept := lit "a";
          concepts := [lit "a"; lit "b"; lit "c"; lit "d"];
          text := lit "[ID: q_001]" ++ [LF] ++ lit "[MAIN_CONCEPT: a]" ++ [LF]
                  ++ lit "[CONCEPTS: a; b; c; d]" |} /\
  ~ length [lit "a"; lit "b"; lit "c"; lit "d"] <= 3.
Proof. split; [vm_compute; reflexivity | simpl; lia]. Qed.

(** C7 (concepts invariant), amended.  Every concept of a Document decoded
    by [_parse_block] is non-empty after trimming, and every record written
    by [normalize_metadata] has at most three concepts. *)
Theorem concepts_invariant :
  (forall raw d c, _parse_block raw = Ok d -> In c (concepts d) -> strip c <> []) /\
  (forall raw e, In e (normalize_metadata raw) ->
                 length (get (e_concepts e) []) <= 3).
Proof.
  split.
  - exact parse_block_concepts_nonempty.
  - intros raw e H. apply normalize_metadata_In in H as [idx [item ->]].
    apply normalize_item_concepts.
Qed.

(** ** Load *)

Lemma load_object (members : list (str * json)) :
  load_raw_metadata (File (Some (JObject members))) =
  match lookup (lit "questions") members with
  | Some (JArray _) => Ok (JObject members)
  | _ => Raise ValueError
  end.
Proof.
  unfold load_raw_metadata. simpl.
  destruct (lookup (lit "questions") members) as [v|]; simpl; [|reflexivity].
  destruct v; reflexivity.
Qed.

Lemma load_absent : load_raw_metadata NoFile = Raise FileNotFoundError.
Proof. reflexivity. Qed.

(** C8 (load raises-iff) is not met by the code.  A present file holding
    the well-formed JSON document [null] makes the membership test
    ["questions" not in data] itself raise [TypeError], an outcome that is
    neither the malformed-input error nor the parsed data; the same happens
    for a number or a boolean, and for a string or an array that contains
    ["questions"], where the subscript [data["questions"]] raises. *)
Theorem load_non_object_raises_TypeError :
  load_raw_metadata (File (Some JNull)) = Raise TypeError /\
  load_raw_metadata (File (Some (JNumber (lit "5")))) = Raise TypeError /\
  load_raw_metadata (File (Some (JBool true))) = Raise TypeError /\
  load_raw_metadata (File (Some (JString (lit "questions")))) = Raise TypeError /\
  load_raw_metadata (File (Some (JArray [JString (lit "questions")]))) =
    Raise TypeError.
Proof. repeat split; vm_compute; reflexivity. Qed.

(** ** Corpus text *)

Lemma blocks_loop_ok (entries : list Entry) (blocks : list str) :
  blocks_loop entries blocks = blocks ++ map block_of entries.
Proof.
  revert blocks. induction entries as [|e rest IH]; intros blocks; simpl.
  - rewrite app_nil_r. reflexivity.
  - rewrite IH, <- app_assoc. reflexivity.
Qed.

Lemma bracketed_strip (s : str) : bracketed s -> strip s = s.
Proof.
  intros [mid ->]. apply strip_of_fixed.
  - apply lstrip_by_fixed. reflexivity.
  - apply rstrip_by_fixed. rewrite app_assoc, rev_app_distr. reflexivity.
Qed.

Lemma bracketed_app (a sep b : str) :
  bracketed a -> bracketed b -> bracketed (a ++ sep ++ b).
Proof.
  intros [m1 ->] [m2 ->]. exists (m1 ++ lit "-" ++ sep ++ lit "[" ++ m2).
  rewrite <- !app_assoc. reflexivity.
Qed.

Lemma block_of_format (e : Entry) :
  block_of e =
  join [LF]
    [ lit "[ID: " ++ strip (get (e_id e) []) ++ lit "]";
      lit "[MAIN_CONCEPT: " ++ strip (get (e_main_concept e) UNKNOWN) ++ lit "]";
      lit "[CONCEPTS: "
        ++ join (lit "; ") (filter nonempty (get (e_concepts e) [])) ++ lit "]";
      [];
      strip (get (e_text e) []);
      [];
      lit "---" ].
Proof. unfold block_of. rewrite py_or_nil. reflexivity. Qed.

Lemma lit_ID_open : lit "[ID: " = lit "[" ++ lit "ID: ".
Proof. reflexivity. Qed.

Lemma lit_SEP_close : lit "---" = lit "--" ++ lit "-".
Proof. reflexivity. Qed.

Lemma block_of_bracketed (e : Entry) : bracketed (block_of e).
Proof.
  rewrite block_of_format. cbn [join].
  set (l0 := strip (get (e_id e) [])).
  set (l1 := lit "[MAIN_CONCEPT: " ++ _ ++ lit "]").
  set (l2 := lit "[CONCEPTS: " ++ _ ++ lit "]").
  set (t := strip (get (e_text e) [])).
  exists (lit "ID: " ++ l0 ++ lit "]" ++ [LF] ++ l1 ++ [LF] ++ l2 ++ [LF]
          ++ [] ++ [LF] ++ t ++ [LF] ++ [] ++ [LF] ++ lit "--").
  rewrite lit_ID_open, lit_SEP_close. rewrite <- !app_assoc. reflexivity.
Qed.

Lemma join_bracketed (sep : str) (blocks : list str) :
  blocks <> [] -> Forall bracketed blocks -> bracketed (join sep blocks).
Proof.
  induction blocks as [|b rest IH]; [contradiction|].
  intros _ H. inversion H as [|? ? Hb Hrest]; subst.
  destruct rest as [|b' rest']; [exact Hb|].
  change (join sep (b :: b' :: rest')) with (b ++ sep ++ join sep (b' :: rest')).
  apply bracketed_app; [exact Hb|]. apply IH; [discriminate | exact Hrest].
Qed.

Lemma filter_nonempty_all (cs : list str) :
  forallb nonempty cs = true -> filter nonempty cs = cs.
Proof.
  induction cs as [|c cs IH]; simpl; [reflexivity|].
  intros H. apply andb_true_iff in H as [-> H]. rewrite IH by exact H.
  reflexivity.
Qed.

(** C9 (corpus blob assembly).  For a non-empty list of Documents the blob
    is the blocks joined by two newlines, followed by one newline.  Every
    block opens with [[] and closes with [-], so exactly one blank line lies
    between consecutive blocks, the joined blocks are already trimmed, and
    the blob ends with exactly one newline.  In each block the concepts
    line is [[CONCEPTS: ]] around the concepts joined by ["; "] (empty
    strings among them dropped, which leaves the concepts of a Document as
    they are); an empty concepts list gives [[CONCEPTS: ]]. *)
Theorem corpus_blob (entries : list Entry) :
  entries <> [] ->
  let blocks := map block_of entries in
  let body := join [LF; LF] blocks in
  build_corpus_text entries = body ++ [LF] /\
  strip body = body /\
  bracketed body /\
  Forall bracketed blocks /\
  (forall e, In e entries ->
     let cs := get (e_concepts e) [] in
     block_of e =
     join [LF]
       [ lit "[ID: " ++ strip (get (e_id e) []) ++ lit "]";
         lit "[MAIN_CONCEPT: " ++ strip (get (e_main_concept e) UNKNOWN) ++ lit "]";
         lit "[CONCEPTS: " ++ join (lit "; ") (filter nonempty cs) ++ lit "]";
         [];
         strip (get (e_text e) []);
         [];
         lit "---" ] /\
     (forallb nonempty cs = true -> filter nonempty cs = cs) /\
     (cs = [] ->
      lit "[CONCEPTS: " ++ join (lit "; ") (filter nonempty cs) ++ lit "]"
      = lit "[CONCEPTS: ]")).
Proof.
  intros Hne blocks body.
  assert (HF : Forall bracketed blocks).
  { unfold blocks. apply Forall_forall. intros b Hb.
    apply in_map_iff in Hb as [e [<- _]]. apply block_of_bracketed. }
  assert (HB : bracketed body).
  { unfold body. apply join_bracketed; [|exact HF].
    unfold blocks. destruct entries; [contradiction | discriminate]. }
  split; [|split; [|split; [|split]]].
  - unfold build_corpus_text. rewrite blocks_loop_ok. simpl app.
    fold blocks. fold body. rewrite (bracketed_strip HB). reflexivity.
  - apply bracketed_strip. exact HB.
  - exact HB.
  - exact HF.
  - intros e _ cs. split; [apply block_of_format|]. split.
    + apply filter_nonempty_all.
    + intros ->. reflexivity.
Qed.

(* ================================================================== *)
(** * Round trip *)
(* ================================================================== *)

(** ** Lines *)

Lemma splitlines_LF (t : str) : splitlines (LF :: t) = [] :: splitlines t.
Proof. destruct t; reflexivity. Qed.

Lemma splitlines_plain (c : char) (t : str) :
  is_linebreak c = false ->
  splitlines (c :: t) = match splitlines t with
                        | [] => [[c]]
                        | l :: ls => (c :: l) :: ls
                        end.
Proof. intros H. simpl. rewrite H. reflexivity. Qed.

Lemma splitlines_line (l rest : str) :
  no_linebreak l = true ->
  splitlines (l ++ [LF] ++ rest) = l :: splitlines rest.
Proof.
  induction l as [|c l IH]; intros H.
  - apply splitlines_LF.
  - simpl in H. apply andb_true_iff in H as [Hc Hl].
    apply negb_true_iff in Hc.
    change ((c :: l) ++ [LF] ++ rest) with (c :: (l ++ [LF] ++ rest)).
    rewrite splitlines_plain by exact Hc. rewrite IH by exact Hl. reflexivity.
Qed.

Lemma split_nonempty (sep : char) (s : str) : split sep s <> [].
Proof.
  destruct s as [|c t]; simpl; [discriminate|].
  destruct (N.eqb c sep); [discriminate|]. destruct (split sep t); discriminate.
Qed.

Lemma splitlines_LF_only (t rest : str) :
  LF_only t = true ->
  splitlines (t ++ [LF] ++ rest) = split LF t ++ splitlines rest.
Proof.
  induction t as [|c t IH]; intros H.
  - apply splitlines_LF.
  - simpl in H. apply andb_true_iff in H as [Hc Ht].
    change ((c :: t) ++ [LF] ++ rest) with (c :: (t ++ [LF] ++ rest)).
    destruct (N.eqb c LF) eqn:E.
    + apply N.eqb_eq in E. subst c. rewrite splitlines_LF, IH by exact Ht.
      reflexivity.
    + rewrite orb_false_r in Hc. apply negb_true_iff in Hc.
      rewrite splitlines_plain by exact Hc. rewrite IH by exact Ht.
      simpl. rewrite E. pose proof (split_nonempty LF t) as Hne.
      destruct (split LF t); [contradiction | reflexivity].
Qed.

Lemma join_split (sep : char) (s : str) : join [sep] (split sep s) = s.
Proof.
  induction s as [|c t IH]; [reflexivity|]. simpl split.
  pose proof (split_nonempty sep t) as Hne.
  destruct (N.eqb c sep) eqn:E.
  - apply N.eqb_eq in E. subst c.
    destruct (split sep t) as [|l ls]; [contradiction|].
    change (join [sep] ([] :: l :: ls)) with ([] ++ [sep] ++ join [sep] (l :: ls)).
    rewrite IH. reflexivity.
  - destruct (split sep t) as [|l ls]; [contradiction|].
    destruct ls as [|l' ls'].
    + simpl in *. rewrite IH. reflexivity.
    + change (join [sep] ((c :: l) :: l' :: ls'))
        with (c :: (l ++ [sep] ++ join [sep] (l' :: ls'))).
      change (join [sep] (l :: l' :: ls'))
        with (l ++ [sep] ++ join [sep] (l' :: ls')) in IH.
      rewrite IH. reflexivity.
Qed.

Lemma join_snoc (sep : str) (parts : list str) (x : str) :
  parts <> [] -> join sep (parts ++ [x]) = join sep parts ++ sep ++ x.
Proof.
  induction parts as [|p rest IH]; [contradiction|]. intros _.
  destruct rest as [|p' rest'].
  - reflexivity.
  - change (join sep ((p :: p' :: rest') ++ [x]))
      with (p ++ sep ++ join sep ((p' :: rest') ++ [x])).
    rewrite IH by discriminate.
    change (join sep (p :: p' :: rest')) with (p ++ sep ++ join sep (p' :: rest')).
    rewrite <- !app_assoc. reflexivity.
Qed.

Lemma until_sep_app (l r : list str) :
  ~ In SEP l -> until_sep (l ++ r) = l ++ until_sep r.
Proof.
  induction l as [|x l IH]; intros H; [reflexivity|]. simpl.
  destruct (str_eqb x SEP) eqn:E.
  - apply str_eqb_eq in E. exfalso. apply H. left. exact E.
  - rewrite IH; [reflexivity|]. intros Hin. apply H. right. exact Hin.
Qed.

(** ** Header lines *)

Lemma startswith_app (p s : str) : startswith p (p ++ s) = true.
Proof.
  induction p as [|c p IH]; [reflexivity|]. simpl.
  rewrite N.eqb_refl. exact IH.
Qed.

Lemma skipn_length_app {A : Type} (p s : list A) : skipn (length p) (p ++ s) = s.
Proof. induction p as [|c p IH]; [reflexivity | exact IH]. Qed.

Lemma extract_bracketed (label v default : str) :
  strip v = v -> rstrip (lit "]") v = v ->
  extract (lit "[" ++ label ++ lit ": " ++ v ++ lit "]") label default = v.
Proof.
  intros Hs Hr. unfold extract.
  change (lit ": ") with (lit ":" ++ [32%N]).
  replace (lit "[" ++ label ++ (lit ":" ++ [32%N]) ++ v ++ lit "]")
    with ((lit "[" ++ label ++ lit ":") ++ ((32%N :: v) ++ [93%N]))
    by (rewrite <- !app_assoc; reflexivity).
  rewrite startswith_app, skipn_length_app.
  unfold rstrip. rewrite rstrip_by_snoc.
  change (existsb (N.eqb 93%N) (lit "]")) with true. cbv iota.
  rewrite rstrip_by_cons; [| exact Hr | reflexivity].
  rewrite strip_cons_space by reflexivity. exact Hs.
Qed.

Lemma no_linebreak_app (a b : str) :
  no_linebreak (a ++ b) = no_linebreak a && no_linebreak b.
Proof. apply forallb_app. Qed.

(** ** The concepts line *)

Lemma concept_safe_spec (c : str) :
  concept_safe c = true ->
  c <> [] /\ no_linebreak c = true /\ has_char 59%N c = false /\ strip c = c.
Proof.
  unfold concept_safe. intros H.
  apply andb_true_iff in H as [H H4]. apply andb_true_iff in H as [H H3].
  apply andb_true_iff in H as [H1 H2].
  apply truthy_nonempty in H1. apply negb_true_iff in H3.
  apply str_eqb_eq in H4. auto.
Qed.

Lemma split_no_sep (sep : char) (a : str) :
  has_char sep a = false -> split sep a = [a].
Proof.
  induction a as [|c a IH]; [reflexivity|]. simpl.
  intros H. apply orb_false_iff in H as [Hc Ha].
  rewrite N.eqb_sym, Hc, IH by exact Ha. reflexivity.
Qed.

Lemma split_at_sep (sep : char) (a b : str) :
  has_char sep a = false -> split sep (a ++ sep :: b) = a :: split sep b.
Proof.
  induction a as [|c a IH]; simpl.
  - intros _. rewrite N.eqb_refl. reflexivity.
  - intros H. apply orb_false_iff in H as [Hc Ha].
    rewrite N.eqb_sym, Hc, IH by exact Ha. reflexivity.
Qed.

Lemma join_cons2 (sep x y : str) (rest : list str) :
  join sep (x :: y :: rest) = x ++ sep ++ join sep (y :: rest).
Proof. reflexivity. Qed.

Lemma split_join_concepts (c : str) (cs : list str) :
  forallb concept_safe (c :: cs) = true ->
  split 59%N (join (lit "; ") (c :: cs)) = c :: map (cons 32%N) cs.
Proof.
  revert c. induction cs as [|c' cs IH]; intros c H.
  - simpl in H. rewrite andb_true_r in H.
    apply concept_safe_spec in H as [_ [_ [H _]]].
    simpl. apply split_no_sep. exact H.
  - cbn [forallb] in H. apply andb_true_iff in H as [Hc H].
    apply concept_safe_spec in Hc as [_ [_ [Hc _]]].
    rewrite join_cons2. change (lit "; ") with [59%N; 32%N].
    change ([59%N; 32%N] ++ join [59%N; 32%N] (c' :: cs))
      with (59%N :: 32%N :: join [59%N; 32%N] (c' :: cs)).
    rewrite split_at_sep by exact Hc.
    change [59%N; 32%N] with (lit "; ").
    cbn [split]. change (N.eqb 32 59) with false. cbv iota.
    rewrite IH by exact H. reflexivity.
Qed.

Lemma decode_concepts (c : str) (cs : list str) :
  forallb concept_safe (c :: cs) = true ->
  map strip (filter (fun x => truthy (strip x)) (c :: map (cons 32%N) cs)) = c :: cs.
Proof.
  intros H. cbn [forallb] in H. apply andb_true_iff in H as [Hc H].
  apply concept_safe_spec in Hc as [Hne [_ [_ Hs]]].
  cbn [filter]. rewrite Hs. apply truthy_nonempty in Hne. rewrite Hne.
  cbn [map]. rewrite Hs. f_equal.
  induction cs as [|x cs IH]; [reflexivity|].
  cbn [forallb] in H. apply andb_true_iff in H as [Hx H].
  apply concept_safe_spec in Hx as [Hxne [_ [_ Hxs]]].
  cbn [map filter]. rewrite strip_cons_space by reflexivity. rewrite Hxs.
  apply truthy_nonempty in Hxne. rewrite Hxne. cbn [map].
  rewrite strip_cons_space by reflexivity. rewrite Hxs, IH by exact H.
  reflexivity.
Qed.

Lemma tight_app (a m b : str) : tight a -> tight b -> tight (a ++ m ++ b).
Proof.
  intros [Ha Sa] [Hb Sb]. split.
  - destruct a; [contradiction | discriminate].
  - apply strip_fixed in Sa as [La _]. apply strip_fixed in Sb as [_ Rb].
    apply strip_of_fixed.
    + apply lstrip_by_fixed. apply lstrip_by_fixed in La.
      destruct a; [contradiction | exact La].
    + apply rstrip_by_fixed. apply rstrip_by_fixed in Rb.
      rewrite !rev_app_distr.
      destruct (rev b) eqn:E; [|exact Rb].
      apply (f_equal (@rev char)) in E. rewrite rev_involutive in E.
      contradiction.
Qed.

Lemma join_tight (c : str) (cs : list str) :
  forallb concept_safe (c :: cs) = true -> tight (join (lit "; ") (c :: cs)).
Proof.
  revert c. induction cs as [|c' cs IH]; intros c H;
    cbn [forallb] in H; apply andb_true_iff in H as [Hc H].
  - apply concept_safe_spec in Hc as [Hne [_ [_ Hs]]]. split; assumption.
  - rewrite join_cons2. apply tight_app.
    + apply concept_safe_spec in Hc as [Hne [_ [_ Hs]]]. split; assumption.
    + apply IH. exact H.
Qed.

Lemma rstrip_by_app_fixed p (a b : str) :
  b <> [] -> rstrip_by p b = b -> rstrip_by p (a ++ b) = a ++ b.
Proof.
  intros Hb H. apply rstrip_by_fixed. apply rstrip_by_fixed in H.
  rewrite rev_app_distr. destruct (rev b) eqn:E; [|exact H].
  apply (f_equal (@rev char)) in E. rewrite rev_involutive in E. contradiction.
Qed.

Lemma join_rstrip (c : str) (cs : list str) :
  forallb concept_safe (c :: cs) = true ->
  rstrip (lit "]") (last (c :: cs) []) = last (c :: cs) [] ->
  rstrip (lit "]") (join (lit "; ") (c :: cs)) = join (lit "; ") (c :: cs).
Proof.
  revert c. induction cs as [|c' cs IH]; intros c H L; [exact L|].
  cbn [forallb] in H. apply andb_true_iff in H as [Hc H].
  rewrite join_cons2, app_assoc. unfold rstrip. apply rstrip_by_app_fixed.
  - apply (join_tight c' cs). exact H.
  - apply IH; [exact H | exact L].
Qed.

Lemma join_no_linebreak (cs : list str) :
  forallb concept_safe cs = true -> no_linebreak (join (lit "; ") cs) = true.
Proof.
  induction cs as [|c cs IH]; [reflexivity|]. intros H.
  cbn [forallb] in H. apply andb_true_iff in H as [Hc H].
  apply concept_safe_spec in Hc as [_ [Hc _]].
  destruct cs as [|c' cs']; [exact Hc|].
  rewrite join_cons2, !no_linebreak_app, Hc, IH by exact H. reflexivity.
Qed.

Lemma filter_concept_safe (cs : list str) :
  forallb concept_safe cs = true -> filter (fun c => truthy c) cs = cs.
Proof.
  induction cs as [|c cs IH]; [reflexivity|]. intros H.
  cbn [forallb] in H. apply andb_true_iff in H as [Hc H].
  apply concept_safe_spec in Hc as [Hc _]. apply truthy_nonempty in Hc.
  simpl. rewrite Hc, IH by exact H. reflexivity.
Qed.

(** The concepts line of a block decodes to the concepts it was built
    from. *)
Lemma concepts_line_roundtrip (cs : list str) :
  concepts_safe cs = true ->
  map strip
    (filter (fun x => truthy (strip x))
       (split 59%N
          (extract (lit "[CONCEPTS: " ++ join (lit "; ") cs ++ lit "]")
                   (lit "CONCEPTS") [])))
  = cs.
Proof.
  unfold concepts_safe. intros H. apply andb_true_iff in H as [H L].
  apply str_eqb_eq in L.
  change (lit "[CONCEPTS: ") with (lit "[" ++ lit "CONCEPTS" ++ lit ": ").
  rewrite <- !app_assoc.
  destruct cs as [|c cs].
  - vm_compute. reflexivity.
  - rewrite extract_bracketed.
    + rewrite split_join_concepts by exact H. apply decode_concepts. exact H.
    + apply (join_tight c cs). exact H.
    + apply join_rstrip; assumption.
Qed.

(** ** Decoding an encoded Document *)

Lemma header_safe_spec (s : str) :
  header_safe s = true ->
  no_linebreak s = true /\ strip s = s /\ rstrip (lit "]") s = s.
Proof.
  unfold header_safe. intros H.
  apply andb_true_iff in H as [H H3]. apply andb_true_iff in H as [H1 H2].
  apply str_eqb_eq in H2. apply str_eqb_eq in H3. auto.
Qed.

Lemma text_safe_spec (t : str) :
  text_safe t = true ->
  t <> [] /\ strip t = t /\ LF_only t = true /\ ~ In SEP (split LF t).
Proof.
  unfold text_safe. intros H.
  apply andb_true_iff in H as [H H4]. apply andb_true_iff in H as [H H3].
  apply andb_true_iff in H as [H1 H2].
  apply truthy_nonempty in H1. apply str_eqb_eq in H2.
  apply negb_true_iff in H4. repeat split; try assumption.
  intros Hin. assert (E : existsb (fun l => str_eqb l SEP) (split LF t) = true).
  { apply existsb_exists. exists SEP. split; [exact Hin | apply str_eqb_refl]. }
  congruence.
Qed.

Lemma until_sep_open (l : str) (rest : list str) :
  until_sep ((91%N :: l) :: rest) = (91%N :: l) :: until_sep rest.
Proof. reflexivity. Qed.

Lemma until_sep_empty (rest : list str) :
  until_sep ([] :: rest) = [] :: until_sep rest.
Proof. reflexivity. Qed.

Lemma splitlines_line3 (a b c rest : str) :
  no_linebreak (a ++ b ++ c) = true ->
  splitlines (a ++ b ++ c ++ [LF] ++ rest) = (a ++ b ++ c) :: splitlines rest.
Proof.
  intros H.
  replace (a ++ b ++ c ++ [LF] ++ rest) with ((a ++ b ++ c) ++ [LF] ++ rest)
    by (rewrite <- !app_assoc; reflexivity).
  apply splitlines_line. exact H.
Qed.

(** The lines of the fragment of a round-trippable Document, alone or
    followed by the newline that ends the blob. *)
Lemma encode_lines (d : Document) (tail : str) :
  round_trippable d = true ->
  splitlines (SEP ++ tail) = [SEP] ->
  splitlines (encode d ++ tail) =
  (lit "[ID: " ++ id d ++ lit "]")
  :: (lit "[MAIN_CONCEPT: " ++ main_concept d ++ lit "]")
  :: (lit "[CONCEPTS: " ++ join (lit "; ") (concepts d) ++ lit "]")
  :: [] :: split LF (text d) ++ [[]; SEP].
Proof.
  unfold round_trippable. intros H Htail.
  apply andb_true_iff in H as [H Ht]. apply andb_true_iff in H as [H Hc].
  apply andb_true_iff in H as [Hi Hm].
  apply header_safe_spec in Hi as [Hi1 [Hi2 _]].
  apply header_safe_spec in Hm as [Hm1 [Hm2 _]].
  apply text_safe_spec in Ht as [_ [Ht2 [Ht3 _]]].
  unfold concepts_safe in Hc. apply andb_true_iff in Hc as [Hc _].
  unfold encode. rewrite block_of_format.
  cbn [entry_of e_id e_main_concept e_concepts e_text get join].
  rewrite Hi2, Hm2, Ht2.
  change (filter nonempty (concepts d)) with (filter (fun c => truthy c) (concepts d)).
  rewrite filter_concept_safe by exact Hc.
  rewrite <- !app_assoc.
  rewrite splitlines_line3
    by (rewrite !no_linebreak_app, Hi1; reflexivity).
  rewrite splitlines_line3
    by (rewrite !no_linebreak_app, Hm1; reflexivity).
  rewrite splitlines_line3
    by (rewrite !no_linebreak_app, join_no_linebreak by exact Hc; reflexivity).
  rewrite (splitlines_line [] _ eq_refl).
  rewrite splitlines_LF_only by exact Ht3.
  rewrite (splitlines_line [] _ eq_refl).
  change (lit "---") with SEP. rewrite Htail. reflexivity.
Qed.

Lemma until_sep_encoded (h0 h1 h2 : str) (body : list str) :
  ~ In SEP body ->
  until_sep ((91%N :: h0) :: (91%N :: h1) :: (91%N :: h2) :: [] :: body ++ [[]; SEP])
  = (91%N :: h0) :: (91%N :: h1) :: (91%N :: h2) :: [] :: body ++ [[]].
Proof.
  intros H. rewrite !until_sep_open, until_sep_empty, until_sep_app by exact H.
  reflexivity.
Qed.

Lemma extract_field (label_open label v default : str) :
  label_open = lit "[" ++ label ++ lit ": " ->
  strip v = v -> rstrip (lit "]") v = v ->
  extract (label_open ++ v ++ lit "]") label default = v.
Proof.
  intros -> Hs Hr. rewrite <- !app_assoc. apply extract_bracketed; assumption.
Qed.

Lemma decode_encoded (d : Document) (tail : str) :
  round_trippable d = true ->
  splitlines (SEP ++ tail) = [SEP] ->
  _parse_block (encode d ++ tail) = Ok d.
Proof.
  intros H Htail. pose proof (encode_lines d tail H Htail) as L.
  unfold round_trippable in H.
  apply andb_true_iff in H as [H Ht]. apply andb_true_iff in H as [H Hc].
  apply andb_true_iff in H as [Hi Hm].
  apply header_safe_spec in Hi as [_ [Hi2 Hi3]].
  apply header_safe_spec in Hm as [_ [Hm2 Hm3]].
  apply text_safe_spec in Ht as [Ht1 [Ht2 [_ Ht4]]].
  rewrite parse_block_lines by (rewrite L; discriminate).
  unfold body_lines. rewrite L. cbn [nth_error].
  rewrite (extract_field (label_open := lit "[ID: ") (lit "ID") UNKNOWN_ID
             eq_refl Hi2 Hi3).
  rewrite (extract_field (label_open := lit "[MAIN_CONCEPT: ") (lit "MAIN_CONCEPT")
             UNKNOWN eq_refl Hm2 Hm3).
  rewrite concepts_line_roundtrip by exact Hc.
  change (lit "[ID: " ++ id d ++ lit "]")
    with (91%N :: lit "ID: " ++ id d ++ lit "]").
  change (lit "[MAIN_CONCEPT: " ++ main_concept d ++ lit "]")
    with (91%N :: lit "MAIN_CONCEPT: " ++ main_concept d ++ lit "]").
  change (lit "[CONCEPTS: " ++ join (lit "; ") (concepts d) ++ lit "]")
    with (91%N :: lit "CONCEPTS: " ++ join (lit "; ") (concepts d) ++ lit "]").
  rewrite until_sep_encoded by exact Ht4.
  cbn [skipn]. rewrite join_snoc by apply split_nonempty.
  rewrite join_split, app_nil_r, strip_snoc_space by reflexivity.
  rewrite Ht2. unfold py_or. apply truthy_nonempty in Ht1. rewrite Ht1.
  destruct d; reflexivity.
Qed.

(** C1, as stated, fails: a Document with empty text meets the claim's
    conditions (no line equal to [---], no leading or trailing whitespace
    in any field), yet the text decoded from its fragment is the whole
    fragment, not the empty text. *)
Lemma roundtrip_counterexample :
  _parse_block (encode {| id := lit "q_001"; main_concept := lit "Risk";
                          concepts := [lit "Risk"]; text := [] |})
  = Ok {| id := lit "q_001"; main_concept := lit "Risk";
          concepts := [lit "Risk"];
          text := lit "[ID: q_001]" ++ [LF] ++ lit "[MAIN_CONCEPT: Risk]" ++ [LF]
                  ++ lit "[CONCEPTS: Risk]" ++ [LF; LF; LF; LF] ++ lit "---" |}
  /\ _parse_block (encode {| id := lit "q_001"; main_concept := lit "Risk";
                             concepts := [lit "Risk"]; text := [] |})
     <> Ok {| id := lit "q_001"; main_concept := lit "Risk";
              concepts := [lit "Risk"]; text := [] |}.
Proof. split; vm_compute; [reflexivity | discriminate]. Qed.

(** Further Documents that meet the claim's conditions and do not survive:
    an id that ends with a closing bracket, a concept that contains a
    semicolon, a text whose lines are separated by carriage returns. *)
Example roundtrip_bracket :
  _parse_block (encode {| id := lit "a]"; main_concept := lit "m";
                          concepts := []; text := lit "t" |})
  = Ok {| id := lit "a"; main_concept := lit "m"; concepts := [];
          text := lit "t" |}.
Proof. vm_compute. reflexivity. Qed.

Example roundtrip_semicolon :
  _parse_block (encode {| id := lit "a"; main_concept := lit "m";
                          concepts := [lit "x;y"]; text := lit "t" |})
  = Ok {| id := lit "a"; main_concept := lit "m";
          concepts := [lit "x"; lit "y"]; text := lit "t" |}.
Proof. vm_compute. reflexivity. Qed.

Example roundtrip_carriage_return :
  _parse_block (encode {| id := lit "a"; main_concept := lit "m";
                          concepts := []; text := lit "s" ++ [CR] ++ lit "t" |})
  = Ok {| id := lit "a"; main_concept := lit "m"; concepts := [];
          text := lit "s" ++ [LF] ++ lit "t" |}.
Proof. vm_compute. reflexivity. Qed.

(** C1 (round trip), amended.  Let [d] be a Document whose id and main
    concept contain no line break, carry no leading or trailing whitespace
    and do not end with a closing bracket; whose concepts are non-empty,
    contain no line break and no semicolon, carry no leading or trailing
    whitespace, the last of them not ending with a closing bracket; and
    whose text is non-empty, carries no leading or trailing whitespace, is
    broken into lines by line feeds only and has no line equal to [---].
    Then decoding the fragment of [d], alone or as the one-block blob of
    [build_corpus_text], yields [d]. *)
Theorem roundtrip (d : Document) :
  round_trippable d = true ->
  _parse_block (encode d) = Ok d /\
  _parse_block (build_corpus_text [entry_of d]) = Ok d.
Proof.
  intros H. split.
  - rewrite <- (app_nil_r (encode d)). apply decode_encoded; [exact H | reflexivity].
  - unfold build_corpus_text. simpl blocks_loop. cbn [join].
    rewrite (bracketed_strip (block_of_bracketed (entry_of d))).
    apply decode_encoded; [exact H | reflexivity].
Qed.

Lemma roundtrip_witness :
  let d := {| id := lit "q_001"; main_concept := lit "Strategic risk";
              concepts := [lit "Strategic risk"; lit "Audit"; lit "SSBR"];
              text := lit "What is risk?" ++ [LF] ++ [LF] ++ lit "Explain."  |} in
  round_trippable d = true /\
  _parse_block (encode d) = Ok d /\
  _parse_block (build_corpus_text [entry_of d]) = Ok d.
Proof.
  intros d.
  assert (H : round_trippable d = true) by (vm_compute; reflexivity).
  split; [exact H | exact (roundtrip d H)].
Defined.

(* ================================================================== *)
(** * The claims at sample inputs *)
(* ================================================================== *)

Lemma ranked_backend_limit {Score : Type} (ranking : list (Context Score)) :
  forall q k, length (ranked_backend ranking q k) <= Z.to_nat k.
Proof. intros q k. unfold ranked_backend. apply firstn_le_length. Qed.

Lemma parse_block_never_raises_witness :
  length (splitlines (lit "[ID: q_001]")) = 1 /\
  exists d, _parse_block (lit "[ID: q_001]") = Ok d /\
            main_concept d = UNKNOWN /\ concepts d = [].
Proof.
  assert (H : length (splitlines (lit "[ID: q_001]")) = 1) by reflexivity.
  split; [exact H|].
  destruct (parse_block_never_raises (lit "[ID: q_001]"))
    as [d [H1 [_ [_ [_ [_ [H5 _]]]]]]].
  exists d. split; [exact H1 | exact (H5 H)].
Defined.

(** Nine raw hits for [top_k = 3], none on the concept: the first three
    raw hits come back. *)
Example concept_search_fallback :
  search_questions_by_concept ascii_lower (ranked_backend ranking_audit)
    (lit "Risk") 3 []
  = (Ok (firstn 3 (map decode_context ranking_audit)), [(lit "Risk", 9%Z)]).
Proof. vm_compute. reflexivity. Qed.

(** Hits 2 and 5 match, whatever the case: exactly those two come back, in
    backend order. *)
Example concept_search_filtering :
  search_questions_by_concept ascii_lower (ranked_backend ranking_mixed)
    (lit " risk ") 5 []
  = (Ok [ decode_context (nth 1 ranking_mixed (sample_context (decoded [])));
          decode_context (nth 4 ranking_mixed (sample_context (decoded []))) ],
     [(lit " risk ", 15%Z)]).
Proof. vm_compute. reflexivity. Qed.

Lemma concept_search_witness :
  let backend := ranked_backend ranking_mixed in
  (forall q k, length (backend q k) <= Z.to_nat k) /\
  exists hits,
    search_questions_by_concept ascii_lower backend (lit " risk ") 5 []
    = (Ok hits, [(lit " risk ", 15%Z)]) /\
    hits = firstn 5 (kept ascii_lower (lit " risk ")
                       (raw_query backend (lit " risk ") 15)) /\
    hits <> [].
Proof.
  intros backend.
  assert (H : forall q k, length (backend q k) <= Z.to_nat k)
    by apply ranked_backend_limit.
  split; [exact H|].
  destruct (concept_search ascii_lower backend H (lit " risk ") 5 [])
    as [hits [H1 [H2 [_ H4]]]].
  exists hits. split; [exact H1|]. split.
  - apply H2. vm_compute. discriminate.
  - apply H4. vm_compute. discriminate.
Defined.

(** A case variant of the id among the candidates is found. *)
Example id_lookup_case_variant :
  get_question_by_id ascii_lower (ranked_backend ranking_case) (lit "q_001") []
  = (Ok (Some (decode_context (nth 2 ranking_case (sample_context (decoded []))))),
     [(lit "q_001", 10%Z)]).
Proof. vm_compute. reflexivity. Qed.

(** The id ranked eleventh is not found, although a query with limit 11
    would have returned it. *)
Example id_lookup_rank_11 :
  get_question_by_id ascii_lower (ranked_backend ranking_ids) (lit "q_001") []
  = (Ok None, [(lit "q_001", 10%Z)]) /\
  existsb (id_matches ascii_lower (lit "q_001"))
          (raw_query (ranked_backend ranking_ids) (lit "q_001") 11) = true.
Proof. split; vm_compute; reflexivity. Qed.

Lemma id_lookup_witness :
  let backend := ranked_backend ranking_ids in
  let backend' := ranked_backend ranking_case in
  (forall q k, length (backend q k) <= Z.to_nat k) /\
  (forall q k, length (backend' q k) <= Z.to_nat k) /\
  forallb (fun y => negb (id_matches ascii_lower (lit "q_001") y))
          (raw_query backend (lit "q_001") 10) = true /\
  get_question_by_id ascii_lower backend (lit "q_001") []
  = (Ok None, [(lit "q_001", 10%Z)]) /\
  get_question_by_id ascii_lower backend' (lit "q_001") []
  = (Ok (Some (decode_context (nth 2 ranking_case (sample_context (decoded []))))),
     [(lit "q_001", 10%Z)]).
Proof.
  intros backend backend'.
  assert (H : forall q k, length (backend q k) <= Z.to_nat k)
    by apply ranked_backend_limit.
  assert (H' : forall q k, length (backend' q k) <= Z.to_nat k)
    by apply ranked_backend_limit.
  assert (N : forallb (fun y => negb (id_matches ascii_lower (lit "q_001") y))
                      (raw_query backend (lit "q_001") 10) = true)
    by (vm_compute; reflexivity).
  split; [exact H|]. split; [exact H'|]. split; [exact N|]. split.
  - destruct (id_lookup ascii_lower backend H (lit "q_001") [])
      as [r [H1 [_ [_ H4]]]].
    rewrite H1, (proj2 H4 N). reflexivity.
  - destruct (id_lookup ascii_lower backend' H' (lit "q_001") [])
      as [r [H1 [_ [H3 _]]]].
    rewrite H1. f_equal. f_equal. apply (H3 _).
    exists (map decode_context (firstn 2 ranking_case)), [].
    split; [|split]; vm_compute; reflexivity.
Defined.

(** Twelve items get the ids [q_001] to [q_012]. *)
Example normalize_twelve_ids :
  map e_id (normalize_metadata sample_raw) =
  map (@Some str)
    [lit "q_001"; lit "q_002"; lit "q_003"; lit "q_004"; lit "q_005";
     lit "q_006"; lit "q_007"; lit "q_008"; lit "q_009"; lit "q_010";
     lit "q_011"; lit "q_012"].
Proof. vm_compute. reflexivity. Qed.

(** Five matches give the first three names, the empty one skipped; no
    match gives [UNKNOWN] and no concepts. *)
Example normalize_first_two :
  firstn 2 (normalize_metadata sample_raw) =
  [ {| e_id := Some (lit "q_001"); e_text := Some (lit "What is risk?");
       e_main_concept := Some (lit "Risk");
       e_concepts := Some [lit "Risk"; lit "Audit"] |};
    {| e_id := Some (lit "q_002"); e_text := Some (lit "What is audit?");
       e_main_concept := Some UNKNOWN; e_concepts := Some [] |} ].
Proof. vm_compute. reflexivity. Qed.

Lemma normalize_postcondition_witness :
  length (normalize_metadata sample_raw) = 12 /\
  exists e, nth_error (normalize_metadata sample_raw) 0 = Some e /\
            e_id e = Some (lit "q_001") /\
            e_main_concept e = Some (lit "Risk") /\
            e_concepts e = Some [lit "Risk"; lit "Audit"].
Proof.
  destruct (normalize_postcondition sample_raw) as [H1 [H2 _]].
  split; [exact H1|].
  destruct (H2 0 (sample_item (lit " What is risk? ")
                    [lit "Risk"; lit "Audit"; []; lit "Control"; lit "SSBR"])
               eq_refl)
    as [e [He [Hid [_ [_ [_ Hm]]]]]].
  exists e. split; [exact He|]. split; [exact Hid|].
  destruct (Hm _ _ eq_refl) as [Hmc Hcs].
  split; [exact Hmc | exact (Hcs eq_refl)].
Defined.

Lemma concepts_invariant_witness :
  (forall c, In c [lit "Risk"; lit "Audit"] -> strip c <> []) /\
  (forall e, In e (normalize_metadata sample_raw) ->
             length (get (e_concepts e) []) <= 3).
Proof.
  split.
  - intros c Hc.
    apply (proj1 concepts_invariant
             (encode (nth 0 sample_documents (decoded [])))
             (nth 0 sample_documents (decoded [])) c).
    + vm_compute. reflexivity.
    + exact Hc.
  - intros e He. exact (proj2 concepts_invariant sample_raw e He).
Defined.

(** Two Documents: one blank line between the blocks, one newline at the
    end. *)
Example corpus_two_documents :
  build_corpus_text (map entry_of sample_documents) =
  lit "[ID: q_001]" ++ [LF] ++
  lit "[MAIN_CONCEPT: Risk]" ++ [LF] ++
  lit "[CONCEPTS: Risk; Audit]" ++ [LF] ++
  [LF] ++
  lit "What is risk?" ++ [LF] ++
  [LF] ++
  lit "---" ++ [LF] ++
  [LF] ++
  lit "[ID: q_002]" ++ [LF] ++
  lit "[MAIN_CONCEPT: UNKNOWN]" ++ [LF] ++
  lit "[CONCEPTS: ]" ++ [LF] ++
  [LF] ++
  lit "What is audit?" ++ [LF] ++
  [LF] ++
  lit "---" ++ [LF].
Proof. vm_compute. reflexivity. Qed.

Lemma corpus_blob_witness :
  map entry_of sample_documents <> [] /\
  build_corpus_text (map entry_of sample_documents) =
  join [LF; LF] (map block_of (map entry_of sample_documents)) ++ [LF] /\
  bracketed (join [LF; LF] (map block_of (map entry_of sample_documents))).
Proof.
  assert (H : map entry_of sample_documents <> []) by discriminate.
  split; [exact H|].
  destruct (corpus_blob H) as [H1 [_ [H3 _]]].
  split; [exact H1 | exact H3].
Defined.

(* ================================================================== *)
(** * Further properties: free-text search *)
(* ================================================================== *)

Section SearchFacts.

Variable Score : Type.
Variable lower : str -> str.
Variable retrieval_query : str -> Z -> list (Context Score).

Lemma decode_context_fields (ctx : Context Score) :
  _parse_block (get (ctx_text ctx) []) =
  Ok {| id := h_id (decode_context ctx);
        main_concept := h_main_concept (decode_context ctx);
        concepts := h_concepts (decode_context ctx);
        text := h_text (decode_context ctx) |}.
Proof.
  rewrite parse_block_decoded. unfold decode_context, hit_of. simpl.
  destruct (decoded (get (ctx_text ctx) [])); reflexivity.
Qed.

(** X1.  [search_questions] issues one backend query with the text and
    the limit it is given, and never raises, whatever the contexts hold: it
    returns one hit per context, in backend order, each with the score of
    its context and the fields its text decodes to; a context without text
    becomes a hit with the default id and main concept, no concepts and
    empty text. *)
Theorem search_questions_batch (query : str) (top_k : Z) (log : list Call) :
  exists hits,
    search_questions retrieval_query query top_k log =
    (Ok hits, log ++ [(query, top_k)]) /\
    length hits = length (retrieval_query query top_k) /\
    (forall i ctx, nth_error (retrieval_query query top_k) i = Some ctx ->
       exists h, nth_error hits i = Some h /\
         h_score h = ctx_score ctx /\
         _parse_block (get (ctx_text ctx) []) =
         Ok {| id := h_id h; main_concept := h_main_concept h;
               concepts := h_concepts h; text := h_text h |} /\
         (ctx_text ctx = None ->
          h_id h = UNKNOWN_ID /\ h_main_concept h = UNKNOWN /\
          h_concepts h = [] /\ h_text h = [])).
Proof.
  exists (raw_query retrieval_query query top_k).
  split; [apply search_questions_ok|]. split.
  - unfold raw_query. apply length_map.
  - intros i ctx Hi. exists (decode_context ctx). split.
    + unfold raw_query. rewrite nth_error_map, Hi. reflexivity.
    + split; [reflexivity|]. split; [apply decode_context_fields|].
      intros Hn. unfold decode_context. rewrite Hn. repeat split.
Qed.

End SearchFacts.

Lemma search_questions_batch_witness :
  exists hits,
    search_questions (ranked_backend ranking_mixed) (lit "risk") 2 [] =
    (Ok hits, [(lit "risk", 2%Z)]) /\
    length hits = 2.
Proof.
  destruct (search_questions_batch (ranked_backend ranking_mixed) (lit "risk") 2 [])
    as [hits [H1 [H2 _]]].
  exists hits. split; [exact H1 | exact H2].
Defined.

(* ================================================================== *)
(** * Further properties: decoding *)
(* ================================================================== *)

Lemma extract_trimmed (l label default : str) :
  strip default = default -> strip (extract l label default) = extract l label default.
Proof.
  intros H. unfold extract.
  destruct (startswith (lit "[" ++ label ++ lit ":") l); [apply strip_idem | exact H].
Qed.

Lemma py_or_strip_trimmed (a b : str) :
  strip (py_or (strip a) (strip b)) = py_or (strip a) (strip b).
Proof. unfold py_or. destruct (truthy (strip a)); apply strip_idem. Qed.

Lemma decoded_concepts_trimmed (l : list str) :
  Forall (fun c => strip c = c /\ c <> [])
         (map strip (filter (fun x => truthy (strip x)) l)).
Proof.
  apply Forall_forall. intros c Hc. apply in_map_iff in Hc as [x [<- Hx]].
  apply filter_In in Hx as [_ Hx]. split; [apply strip_idem|].
  apply truthy_nonempty. exact Hx.
Qed.

(** X2.  Every field of a decoded Document is free of leading and trailing
    whitespace: id, main concept and text are fixed by [strip], and every
    concept is fixed by [strip] and non-empty. *)
Theorem parse_block_fields_trimmed (raw : str) :
  exists d, _parse_block raw = Ok d /\
    strip (id d) = id d /\
    strip (main_concept d) = main_concept d /\
    Forall (fun c => strip c = c /\ c <> []) (concepts d) /\
    strip (text d) = text d.
Proof.
  destruct (splitlines raw) eqn:E.
  - eexists. split; [apply parse_block_no_lines; exact E|].
    cbn [id main_concept concepts text]. repeat split.
    + constructor.
    + apply strip_idem.
  - eexists. split; [apply parse_block_lines; rewrite E; discriminate|].
    cbn [id main_concept concepts text]. repeat split.
    + destruct (nth_error (splitlines raw) 0); [|reflexivity].
      apply extract_trimmed. reflexivity.
    + destruct (nth_error (splitlines raw) 1); [|reflexivity].
      apply extract_trimmed. reflexivity.
    + apply decoded_concepts_trimmed.
    + apply py_or_strip_trimmed.
Qed.

(** Two inputs whose lines agree up to a first [---] line decode alike
    when the body before that line is not blank. *)
Lemma parse_block_same_prefix (raw1 raw2 : str) (pre post1 post2 : list str) :
  splitlines raw1 = pre ++ SEP :: post1 ->
  splitlines raw2 = pre ++ SEP :: post2 ->
  ~ In SEP pre ->
  blank (join [LF] (skipn 4 pre)) = false ->
  _parse_block raw1 = _parse_block raw2.
Proof.
  intros H1 H2 Hsep Hb.
  assert (L : 5 <= length pre).
  { destruct pre as [|a [|b [|c [|d [|e r]]]]]; try discriminate Hb.
    simpl. lia. }
  assert (N : forall post i, i < 3 ->
                nth_error (pre ++ SEP :: post) i = nth_error pre i).
  { intros post i Hi. apply nth_error_app1. lia. }
  assert (U : forall post, skipn 4 (until_sep (pre ++ SEP :: post)) = skipn 4 pre).
  { intros post. rewrite until_sep_app by exact Hsep. simpl.
    change (str_eqb SEP SEP) with true. cbv iota. rewrite app_nil_r. reflexivity. }
  assert (T : forall raw, py_or (strip (join [LF] (skipn 4 pre))) (strip raw) =
                          strip (join [LF] (skipn 4 pre))).
  { intros raw. unfold py_or.
    destruct (strip (join [LF] (skipn 4 pre))) eqn:S; [|reflexivity].
    apply strip_blank in S. congruence. }
  rewrite (parse_block_lines raw1) by (rewrite H1; destruct pre; discriminate).
  rewrite (parse_block_lines raw2) by (rewrite H2; destruct pre; discriminate).
  unfold body_lines. rewrite H1, H2, !U, !T, !N by lia. reflexivity.
Qed.

(** X3.  What follows the first [---] line is ignored: two inputs whose
    lines agree up to and including a first [---] line, with a body before
    it that is not blank, decode to the same Document. *)
Theorem parse_block_ignores_after_separator
  (raw1 raw2 : str) (pre post1 post2 : list str) :
  splitlines raw1 = pre ++ SEP :: post1 ->
  splitlines raw2 = pre ++ SEP :: post2 ->
  ~ In SEP pre ->
  blank (join [LF] (skipn 4 pre)) = false ->
  exists d, _parse_block raw1 = Ok d /\ _parse_block raw2 = Ok d.
Proof.
  intros H1 H2 Hsep Hb. destruct (parse_block_total raw1) as [d Hd].
  exists d. split; [exact Hd|].
  rewrite <- (parse_block_same_prefix raw1 raw2 pre post1 post2 H1 H2 Hsep Hb).
  exact Hd.
Qed.

Lemma splitlines_break (c c' : char) (t : str) :
  is_linebreak c = true ->
  splitlines (c :: c' :: t) =
  [] :: (if N.eqb c CR && N.eqb c' LF then splitlines t else splitlines (c' :: t)).
Proof.
  intros H.
  change (splitlines (c :: c' :: t))
    with (if is_linebreak c
          then [] :: (if N.eqb c CR && N.eqb c' LF then splitlines t
                      else splitlines (c' :: t))
          else match splitlines (c' :: t) with
               | [] => [[c]]
               | l :: ls => (c :: l) :: ls
               end).
  rewrite H. reflexivity.
Qed.

(** A line feed closes the line it ends: the lines of what follows are
    those of the rest. *)
Lemma splitlines_after_LF_bounded (n : nat) :
  forall x rest : str, length x <= n ->
    splitlines ((x ++ [LF]) ++ rest) = splitlines (x ++ [LF]) ++ splitlines rest.
Proof.
  induction n as [|n IH]; intros x rest Hn.
  - destruct x; [|simpl in Hn; lia]. simpl app. rewrite splitlines_LF.
    reflexivity.
  - destruct x as [|c x]; [simpl app; rewrite splitlines_LF; reflexivity|].
    simpl in Hn. destruct (is_linebreak c) eqn:B.
    + destruct x as [|c' x'].
      * simpl. rewrite B. destruct (N.eqb c CR); simpl;
          [reflexivity | destruct rest; reflexivity].
      * change (((c :: c' :: x') ++ [LF]) ++ rest)
          with (c :: c' :: ((x' ++ [LF]) ++ rest)).
        change ((c :: c' :: x') ++ [LF]) with (c :: c' :: (x' ++ [LF])).
        rewrite !splitlines_break by exact B.
        destruct (N.eqb c CR && N.eqb c' LF).
        -- rewrite (IH x' rest) by (simpl in Hn; lia). reflexivity.
        -- change (c' :: (x' ++ [LF]) ++ rest) with (((c' :: x') ++ [LF]) ++ rest).
           change (c' :: x' ++ [LF]) with ((c' :: x') ++ [LF]).
           rewrite (IH (c' :: x') rest) by lia. reflexivity.
    + change (((c :: x) ++ [LF]) ++ rest) with (c :: ((x ++ [LF]) ++ rest)).
      change ((c :: x) ++ [LF]) with (c :: (x ++ [LF])).
      rewrite !splitlines_plain by exact B.
      rewrite (IH x rest) by lia.
      destruct (splitlines (x ++ [LF])) eqn:E; [|reflexivity].
      apply splitlines_nil in E. destruct x; discriminate.
Qed.

Lemma splitlines_after_LF (x rest : str) :
  splitlines (x ++ [LF] ++ rest) = splitlines (x ++ [LF]) ++ splitlines rest.
Proof.
  rewrite app_assoc. apply splitlines_after_LF_bounded with (n := length x). lia.
Qed.

Lemma blank_cons (c : char) (s : str) :
  isspace c = false -> blank (c :: s) = false.
Proof. intros H. unfold blank. simpl. rewrite H. reflexivity. Qed.

Lemma text_body_not_blank (t : str) :
  t <> [] -> strip t = t -> blank (t ++ [LF]) = false.
Proof.
  intros Hne Hs. apply strip_fixed in Hs as [Hl _].
  apply lstrip_by_fixed in Hl. destruct t as [|c t]; [contradiction|].
  apply blank_cons. exact Hl.
Qed.

Lemma round_trippable_text (d : Document) :
  round_trippable d = true ->
  text d <> [] /\ strip (text d) = text d /\ ~ In SEP (split LF (text d)).
Proof.
  unfold round_trippable. intros H. apply andb_true_iff in H as [_ Ht].
  apply text_safe_spec in Ht as [H1 [H2 [_ H4]]]. auto.
Qed.

(** The lines of a fragment before its [---] line. *)
Lemma encoded_prefix_no_sep (a b c : str) (body : list str) :
  ~ In SEP body ->
  ~ In SEP ((91%N :: a) :: (91%N :: b) :: (91%N :: c) :: [] :: body ++ [[]]).
Proof.
  intros Hb Hin. simpl in Hin.
  destruct Hin as [E | [E | [E | [E | Hin]]]]; try discriminate E.
  apply in_app_or in Hin as [Hin | [E | []]]; [contradiction | discriminate E].
Qed.

(** A chunk that opens with the fragment of a round-trippable Document
    and goes on after its [---] line decodes to that Document. *)
Lemma decode_chunk (d : Document) (rest : str) :
  round_trippable d = true ->
  _parse_block (encode d ++ [LF] ++ rest) = Ok d.
Proof.
  intros H.
  pose proof (encode_lines d [LF] H eq_refl) as L1.
  pose proof (encode_lines d [] H eq_refl) as L0.
  rewrite app_nil_r in L0.
  destruct (round_trippable_text d H) as [Ht1 [Ht2 Ht4]].
  set (pre := (lit "[ID: " ++ id d ++ lit "]")
               :: (lit "[MAIN_CONCEPT: " ++ main_concept d ++ lit "]")
               :: (lit "[CONCEPTS: " ++ join (lit "; ") (concepts d) ++ lit "]")
               :: [] :: split LF (text d) ++ [[]]).
  assert (L : splitlines (encode d ++ [LF] ++ rest) = pre ++ SEP :: splitlines rest).
  { rewrite splitlines_after_LF, L1. unfold pre. cbn [app].
    rewrite <- !app_assoc. reflexivity. }
  assert (L0' : splitlines (encode d) = pre ++ SEP :: []).
  { rewrite L0. unfold pre. cbn [app]. rewrite <- !app_assoc. reflexivity. }
  rewrite (parse_block_same_prefix _ (encode d) pre _ _ L L0').
  - rewrite <- (app_nil_r (encode d)). apply decode_encoded; [exact H | reflexivity].
  - apply (@encoded_prefix_no_sep (lit "ID: " ++ id d ++ lit "]")
             (lit "MAIN_CONCEPT: " ++ main_concept d ++ lit "]")
             (lit "CONCEPTS: " ++ join (lit "; ") (concepts d) ++ lit "]")
             (split LF (text d))).
    exact Ht4.
  - unfold pre. cbn [skipn]. rewrite join_snoc by apply split_nonempty.
    rewrite join_split, app_nil_r. apply text_body_not_blank; assumption.
Qed.

Lemma join_cons_nonempty (sep x : str) (rest : list str) :
  rest <> [] -> join sep (x :: rest) = x ++ sep ++ join sep rest.
Proof. destruct rest; [contradiction | reflexivity]. Qed.

(** X4.  Decoding a chunk that opens with the fragment of a round-trippable
    Document and continues after its [---] line with anything at all, such
    as the following blocks of the blob, yields that Document; in
    particular decoding a whole blob yields its first Document. *)
Theorem decode_first_block (d : Document) :
  round_trippable d = true ->
  (forall rest, _parse_block (encode d ++ [LF] ++ rest) = Ok d) /\
  (forall entries, _parse_block (build_corpus_text (entry_of d :: entries)) = Ok d).
Proof.
  intros H. split; [intros rest; apply decode_chunk; exact H|].
  intros entries. unfold build_corpus_text. rewrite blocks_loop_ok.
  change ([] ++ map block_of (entry_of d :: entries))
    with (block_of (entry_of d) :: map block_of entries).
  assert (B : bracketed (join [LF; LF] (block_of (entry_of d) :: map block_of entries))).
  { apply join_bracketed; [discriminate|]. constructor; [apply block_of_bracketed|].
    apply Forall_forall. intros b Hb. apply in_map_iff in Hb as [e [<- _]].
    apply block_of_bracketed. }
  rewrite (bracketed_strip B).
  destruct entries as [|e entries].
  - simpl map. cbn [join]. change (block_of (entry_of d)) with (encode d).
    change [LF] with ([LF] ++ []). apply decode_chunk. exact H.
  - rewrite join_cons_nonempty by discriminate.
    change (block_of (entry_of d)) with (encode d).
    rewrite <- !app_assoc.
    change ([LF; LF] ++ ?x) with ([LF] ++ ([LF] ++ x)).
    apply decode_chunk. exact H.
Qed.

Lemma encode_unfold (d : Document) :
  encode d =
  (lit "[ID: " ++ strip (id d) ++ lit "]") ++ [LF] ++
  (lit "[MAIN_CONCEPT: " ++ strip (main_concept d) ++ lit "]") ++ [LF] ++
  (lit "[CONCEPTS: " ++ join (lit "; ") (filter nonempty (concepts d)) ++ lit "]")
  ++ [LF] ++ [] ++ [LF] ++ strip (text d) ++ [LF] ++ [] ++ [LF] ++ lit "---".
Proof. unfold encode. rewrite block_of_format. reflexivity. Qed.

Lemma header_line_no_linebreak (open_ : string) (s : str) :
  no_linebreak (lit open_) = true -> no_linebreak s = true ->
  no_linebreak (lit open_ ++ s ++ lit "]") = true.
Proof. intros Ho Hs. rewrite !no_linebreak_app, Ho, Hs. reflexivity. Qed.

(** The first lines of a fragment, as far as its header fields are safe. *)
Lemma encode_header_lines (d : Document) :
  header_safe (id d) = true ->
  exists X, splitlines (encode d) = (lit "[ID: " ++ id d ++ lit "]") :: X /\
    (header_safe (main_concept d) = true ->
     exists Y, X = (lit "[MAIN_CONCEPT: " ++ main_concept d ++ lit "]") :: Y /\
       (concepts_safe (concepts d) = true ->
        exists Z, Y = (lit "[CONCEPTS: " ++ join (lit "; ") (concepts d) ++ lit "]")
                      :: Z)).
Proof.
  intros Hi. apply header_safe_spec in Hi as [Hi1 [Hi2 _]].
  rewrite encode_unfold, Hi2.
  rewrite splitlines_line
    by (apply (header_line_no_linebreak "[ID: "); [reflexivity | exact Hi1]).
  eexists. split; [reflexivity|].
  intros Hm. apply header_safe_spec in Hm as [Hm1 [Hm2 _]]. rewrite Hm2.
  rewrite splitlines_line
    by (apply (header_line_no_linebreak "[MAIN_CONCEPT: "); [reflexivity | exact Hm1]).
  eexists. split; [reflexivity|].
  intros Hc. unfold concepts_safe in Hc. apply andb_true_iff in Hc as [Hc _].
  change (filter nonempty (concepts d)) with (filter (fun c => truthy c) (concepts d)).
  rewrite filter_concept_safe by exact Hc.
  rewrite splitlines_line
    by (apply (header_line_no_linebreak "[CONCEPTS: ");
        [reflexivity | apply join_no_linebreak; exact Hc]).
  eexists. reflexivity.
Qed.

(** X5.  The header fields survive whatever the text holds.  For any
    Document whose id is safe (no line break, trimmed, no closing bracket
    at its end), decoding its fragment returns that id, even when the text
    is empty, contains a [---] line or any line break; if the main concept
    is safe as well it is returned too, and then so are the concepts when
    they are safe. *)
Theorem header_fields_survive (d : Document) :
  header_safe (id d) = true ->
  exists r, _parse_block (encode d) = Ok r /\ id r = id d /\
    (header_safe (main_concept d) = true ->
     main_concept r = main_concept d /\
     (concepts_safe (concepts d) = true -> concepts r = concepts d)).
Proof.
  intros Hi. destruct (encode_header_lines d Hi) as [X [E0 Hm]].
  eexists. split; [apply parse_block_lines; rewrite E0; discriminate|].
  rewrite E0. cbn [id main_concept concepts nth_error].
  apply header_safe_spec in Hi as [_ [Hi2 Hi3]]. split.
  - apply (extract_field (label_open := lit "[ID: ") (lit "ID") UNKNOWN_ID
             eq_refl Hi2 Hi3).
  - intros Hmc. destruct (Hm Hmc) as [Y [-> Hc]].
    apply header_safe_spec in Hmc as [_ [Hm2 Hm3]]. cbn [nth_error]. split.
    + apply (extract_field (label_open := lit "[MAIN_CONCEPT: ")
               (lit "MAIN_CONCEPT") UNKNOWN eq_refl Hm2 Hm3).
    + intros Hcs. destruct (Hc Hcs) as [Z ->]. cbn [nth_error].
      apply concepts_line_roundtrip. exact Hcs.
Qed.

Lemma header_fields_survive_witness :
  let d := {| id := lit "q_001"; main_concept := lit "Risk";
              concepts := [lit "Risk"; lit "Audit"];
              text := lit "---" ++ [CR] ++ lit " x " |} in
  header_safe (id d) = true /\
  exists r, _parse_block (encode d) = Ok r /\ id r = id d.
Proof.
  intros d.
  assert (H : header_safe (id d) = true) by (vm_compute; reflexivity).
  split; [exact H|].
  destruct (header_fields_survive d H) as [r [H1 [H2 _]]].
  exists r. split; [exact H1 | exact H2].
Defined.

Lemma parse_block_ignores_after_separator_witness :
  let d := nth 0 sample_documents (decoded []) in
  exists r, _parse_block (encode d ++ [LF] ++ lit "[ID: q_999]") = Ok r /\
            _parse_block (encode d) = Ok r.
Proof.
  intros d.
  apply (parse_block_ignores_after_separator
           (encode d ++ [LF] ++ lit "[ID: q_999]") (encode d)
           (firstn 6 (splitlines (encode d))) [lit "[ID: q_999]"] []).
  - vm_compute. reflexivity.
  - vm_compute. reflexivity.
  - intros H. vm_compute in H. intuition discriminate.
  - vm_compute. reflexivity.
Defined.

Lemma decode_first_block_witness :
  let d := nth 0 sample_documents (decoded []) in
  round_trippable d = true /\
  _parse_block (build_corpus_text (map entry_of sample_documents)) = Ok d.
Proof.
  intros d.
  assert (H : round_trippable d = true) by (vm_compute; reflexivity).
  split; [exact H|].
  exact (proj2 (decode_first_block d H)
           (map entry_of (skipn 1 sample_documents))).
Defined.

(* ================================================================== *)
(** * Further properties: concept search and id lookup on any backend *)
(* ================================================================== *)

Lemma slice_to_length {A : Type} (k : Z) (l : list A) :
  (0 <= k)%Z -> length (slice_to k l) <= Z.to_nat k.
Proof.
  intros H. unfold slice_to. apply Z.leb_le in H. rewrite H.
  apply firstn_le_length.
Qed.

Lemma slice_to_prefix {A : Type} (k : Z) (l : list A) :
  exists n, slice_to k l = firstn n l.
Proof. unfold slice_to. destruct (0 <=? k)%Z; eexists; reflexivity. Qed.

Lemma firstn_In {A : Type} (n : nat) (l : list A) (x : A) :
  In x (firstn n l) -> In x l.
Proof.
  revert l. induction n as [|n IH]; intros [|y l]; simpl; try contradiction.
  intros [E | H]; [left; exact E | right; apply IH; exact H].
Qed.

Lemma decoded_encode (d : Document) :
  round_trippable d = true -> decoded (encode d) = d.
Proof.
  intros H. unfold decoded. rewrite <- (app_nil_r (encode d)).
  rewrite decode_encoded by (exact H || reflexivity). reflexivity.
Qed.

Lemma py_or_filter_hit {A : Type} (p : A -> bool) (l : list A) (x : A) :
  In x l -> p x = true -> py_or (filter p l) l = filter p l.
Proof.
  intros Hin Hp. assert (F : In x (filter p l)) by (apply filter_In; split; assumption).
  unfold py_or. destruct (filter p l); [contradiction | reflexivity].
Qed.

Lemma py_or_filter_In {A : Type} (p : A -> bool) (l : list A) (x : A) :
  In x (py_or (filter p l) l) -> In x l.
Proof.
  unfold py_or. destruct (filter p l) eqn:E; cbn [truthy]; [tauto|].
  rewrite <- E. intros H. apply filter_In in H. apply H.
Qed.

Section ConceptFacts.

Variable Score : Type.
Variable lower : str -> str.
Variable retrieval_query : str -> Z -> list (Context Score).

Lemma concept_search_result (concept_ : str) (top_k : Z) (log : list Call) :
  search_questions_by_concept lower retrieval_query concept_ top_k log =
  (Ok (slice_to top_k
         (py_or (filter (tagged_with lower concept_)
                        (raw_query retrieval_query concept_ (top_k * 3)))
                (raw_query retrieval_query concept_ (top_k * 3)))),
   log ++ [(concept_, (top_k * 3)%Z)]).
Proof.
  unfold search_questions_by_concept, rbind. rewrite search_questions_ok.
  unfold ret. rewrite filter_loop_ok, concept_matches_kept. reflexivity.
Qed.

(** X6.  Bounds of the concept search on any backend, also one that
    returns more than it was asked for.  For [top_k >= 0] at most [top_k]
    hits come back, none for [top_k = 0]; for [top_k >= 1] the result is
    non-empty whenever the backend returned a hit; a negative [top_k] does
    not raise but drops the last [-top_k] of the hits selected. *)
Theorem concept_search_bounds (concept_ : str) (top_k : Z) (log : list Call) :
  let raw_hits := raw_query retrieval_query concept_ (top_k * 3) in
  let selected := py_or (filter (tagged_with lower concept_) raw_hits) raw_hits in
  exists hits,
    search_questions_by_concept lower retrieval_query concept_ top_k log =
    (Ok hits, log ++ [(concept_, (top_k * 3)%Z)]) /\
    ((0 <= top_k)%Z -> length hits <= Z.to_nat top_k) /\
    (top_k = 0%Z -> hits = []) /\
    ((0 < top_k)%Z -> raw_hits <> [] -> hits <> []) /\
    ((top_k < 0)%Z ->
     hits = firstn (length selected - Z.to_nat (- top_k)) selected).
Proof.
  intros raw_hits selected. eexists. split; [apply concept_search_result|].
  fold raw_hits. fold selected. split; [|split; [|split]].
  - apply slice_to_length.
  - intros ->. reflexivity.
  - intros Hk Hraw. unfold slice_to.
    assert (E : (0 <=? top_k)%Z = true) by (apply Z.leb_le; lia). rewrite E.
    assert (S : selected <> []).
    { unfold selected, py_or. destruct (filter _ raw_hits); simpl;
        [exact Hraw | discriminate]. }
    destruct selected; [contradiction|].
    destruct (Z.to_nat top_k) eqn:N; [lia | discriminate].
  - intros Hk. unfold slice_to.
    assert (E : (0 <=? top_k)%Z = false) by (apply Z.leb_gt; lia). rewrite E.
    reflexivity.
Qed.

(** X7.  Precision of the concept search on any backend: every hit
    returned is one of the backend's hits, and as soon as one of the
    backend's hits carries the concept, every hit returned carries it; hits
    that do not carry the concept come back only when none does. *)
Theorem concept_search_precision (concept_ : str) (top_k : Z) (log : list Call) :
  let raw_hits := raw_query retrieval_query concept_ (top_k * 3) in
  exists hits,
    search_questions_by_concept lower retrieval_query concept_ top_k log =
    (Ok hits, log ++ [(concept_, (top_k * 3)%Z)]) /\
    (forall h, In h hits -> In h raw_hits) /\
    ((exists h, In h raw_hits /\ tagged_with lower concept_ h = true) ->
     forall h, In h hits -> tagged_with lower concept_ h = true) /\
    ((exists h, In h hits /\ tagged_with lower concept_ h = false) ->
     forall h, In h raw_hits -> tagged_with lower concept_ h = false).
Proof.
  intros raw_hits. eexists. split; [apply concept_search_result|].
  fold raw_hits.
  destruct (slice_to_prefix top_k
              (py_or (filter (tagged_with lower concept_) raw_hits) raw_hits))
    as [n ->].
  assert (P : (exists h, In h raw_hits /\ tagged_with lower concept_ h = true) ->
              forall h, In h (firstn n (py_or (filter (tagged_with lower concept_)
                                                       raw_hits) raw_hits)) ->
                        tagged_with lower concept_ h = true).
  { intros [h0 [Hin Ht]] h Hh. apply firstn_In in Hh.
    rewrite (py_or_filter_hit _ _ h0 Hin Ht) in Hh.
    apply filter_In in Hh. apply Hh. }
  split; [|split].
  - intros h Hh. apply firstn_In in Hh. apply py_or_filter_In in Hh. exact Hh.
  - exact P.
  - intros [h [Hh Hf]] h' Hin'.
    destruct (tagged_with lower concept_ h') eqn:T; [|reflexivity].
    assert (Ht : tagged_with lower concept_ h = true).
    { apply P; [exists h'; split; assumption | exact Hh]. }
    congruence.
Qed.

(** X8.  Ingestion and concept search compose.  When the backend's answer
    to a concept query holds the fragment of a round-trippable Document
    whose main concept, or one of whose concepts, lower-cases to the
    trimmed lower-cased concept asked for, the fallback is not taken: the
    hit of that Document, with the Document's own fields, is among the hits
    kept, and every hit returned carries the concept. *)
Theorem concept_search_finds_tagged
  (d : Document) (ctx : Context Score) (concept_ : str) (top_k : Z) (log : list Call) :
  round_trippable d = true ->
  In ctx (retrieval_query concept_ (top_k * 3)) ->
  ctx_text ctx = Some (encode d) ->
  lower (main_concept d) = lower (strip concept_) \/
  (exists c, In c (concepts d) /\ lower c = lower (strip concept_)) ->
  let raw_hits := raw_query retrieval_query concept_ (top_k * 3) in
  exists hits,
    search_questions_by_concept lower retrieval_query concept_ top_k log =
    (Ok hits, log ++ [(concept_, (top_k * 3)%Z)]) /\
    hits = slice_to top_k (filter (tagged_with lower concept_) raw_hits) /\
    In (hit_of ctx d) (filter (tagged_with lower concept_) raw_hits) /\
    (forall h, In h hits -> tagged_with lower concept_ h = true).
Proof.
  intros Hd Hin Htext Htag raw_hits.
  assert (Hdec : decode_context ctx = hit_of ctx d).
  { unfold decode_context. rewrite Htext. simpl get.
    rewrite decoded_encode by exact Hd. reflexivity. }
  assert (Hraw : In (hit_of ctx d) raw_hits).
  { unfold raw_hits, raw_query. rewrite <- Hdec. apply in_map. exact Hin. }
  assert (Ht : tagged_with lower concept_ (hit_of ctx d) = true).
  { unfold tagged_with, hit_of. cbn [h_main_concept h_concepts].
    apply orb_true_iff. destruct Htag as [E | [c [Hc E]]].
    - left. rewrite E. apply str_eqb_refl.
    - right. apply existsb_exists. exists c. split; [exact Hc|].
      rewrite E. apply str_eqb_refl. }
  assert (F : In (hit_of ctx d) (filter (tagged_with lower concept_) raw_hits))
    by (apply filter_In; split; assumption).
  eexists. split; [apply concept_search_result|]. fold raw_hits.
  assert (O : py_or (filter (tagged_with lower concept_) raw_hits) raw_hits =
              filter (tagged_with lower concept_) raw_hits)
    by (apply (py_or_filter_hit _ _ (hit_of ctx d)); assumption).
  rewrite O. split; [reflexivity|]. split; [exact F|].
  intros h Hh. destruct (slice_to_prefix top_k
                           (filter (tagged_with lower concept_) raw_hits)) as [n E].
  rewrite E in Hh. apply firstn_In in Hh. apply filter_In in Hh. apply Hh.
Qed.

(** X9.  Ingestion and id lookup compose.  When the backend's answer to an
    id query holds the fragment of a round-trippable Document whose id
    lower-cases to the trimmed lower-cased query id, and no candidate
    ranked before it has such an id, [get_question_by_id] returns the hit
    of that Document: its id, text, main concept and concepts, with the
    score of its context. *)
Theorem id_lookup_finds_ingested
  (d : Document) (ctx : Context Score) (pre post : list (Context Score))
  (question_id : str) (log : list Call) :
  round_trippable d = true ->
  retrieval_query question_id 10 = pre ++ ctx :: post ->
  ctx_text ctx = Some (encode d) ->
  lower (id d) = lower (strip question_id) ->
  forallb (fun c => negb (id_matches lower question_id (decode_context c))) pre = true ->
  get_question_by_id lower retrieval_query question_id log =
  (Ok (Some {| h_id := id d; h_text := text d; h_main_concept := main_concept d;
               h_concepts := concepts d; h_score := ctx_score ctx |}),
   log ++ [(question_id, 10%Z)]).
Proof.
  intros Hd Hq Htext Hid Hpre.
  unfold get_question_by_id, rbind. rewrite search_questions_ok. unfold ret.
  rewrite id_loop_find. unfold raw_query. rewrite Hq, map_app. cbn [map].
  assert (Hdec : decode_context ctx = hit_of ctx d).
  { unfold decode_context. rewrite Htext. simpl get.
    rewrite decoded_encode by exact Hd. reflexivity. }
  rewrite Hdec.
  assert (Hm : id_matches lower question_id (hit_of ctx d) = true).
  { unfold id_matches, hit_of. cbn [h_id].
    unfold round_trippable in Hd. apply andb_true_iff in Hd as [Hd _].
    apply andb_true_iff in Hd as [Hd _]. apply andb_true_iff in Hd as [Hd _].
    apply header_safe_spec in Hd as [_ [Hs _]]. rewrite Hs, Hid.
    apply str_eqb_refl. }
  f_equal. f_equal. clear Hq.
  induction pre as [|c pre IH]; simpl.
  - rewrite Hm. reflexivity.
  - simpl in Hpre. apply andb_true_iff in Hpre as [Hc Hpre].
    apply negb_true_iff in Hc. rewrite Hc. apply IH. exact Hpre.
Qed.

End ConceptFacts.

Lemma concept_search_bounds_witness :
  exists hits,
    search_questions_by_concept ascii_lower (fun _ _ => ranking_audit)
      (lit "Risk") 0 []
    = (Ok hits, [(lit "Risk", 0%Z)]) /\
    hits = [] /\
    raw_query (fun _ _ => ranking_audit) (lit "Risk") 0 <> [].
Proof.
  destruct (concept_search_bounds ascii_lower (fun _ _ => ranking_audit)
              (lit "Risk") 0 []) as [hits [H1 [_ [H3 _]]]].
  exists hits. split; [exact H1|]. split; [exact (H3 eq_refl)|].
  vm_compute. discriminate.
Defined.

Lemma concept_search_precision_witness :
  exists hits,
    search_questions_by_concept ascii_lower (ranked_backend ranking_mixed)
      (lit " risk ") 1 []
    = (Ok hits, [(lit " risk ", 3%Z)]) /\
    forall h, In h hits -> tagged_with ascii_lower (lit " risk ") h = true.
Proof.
  destruct (concept_search_precision ascii_lower (ranked_backend ranking_mixed)
              (lit " risk ") 1 []) as [hits [H1 [_ [H3 _]]]].
  exists hits. split; [exact H1|]. apply H3.
  exists (decode_context (nth 1 ranking_mixed (sample_context (decoded [])))).
  split; [right; left; reflexivity | vm_compute; reflexivity].
Defined.

Lemma concept_search_finds_tagged_witness :
  let d := sample_document 2 (lit "RISK") [lit "Control"] in
  let ctx := sample_context d in
  round_trippable d = true /\
  exists hits,
    search_questions_by_concept ascii_lower (ranked_backend ranking_mixed)
      (lit " risk ") 5 []
    = (Ok hits, [(lit " risk ", 15%Z)]) /\
    In (hit_of ctx d)
       (filter (tagged_with ascii_lower (lit " risk "))
          (raw_query (ranked_backend ranking_mixed) (lit " risk ") 15)).
Proof.
  intros d ctx.
  assert (H : round_trippable d = true) by (vm_compute; reflexivity).
  split; [exact H|].
  destruct (@concept_search_finds_tagged Z ascii_lower (ranked_backend ranking_mixed)
              d ctx (lit " risk ") 5 [] H
              (or_intror (or_introl eq_refl)) eq_refl (or_introl eq_refl))
    as [hits [H1 [_ [H3 _]]]].
  exists hits. split; [exact H1 | exact H3].
Defined.

Lemma id_lookup_finds_ingested_witness :
  let d := {| id := lit "Q_001"; main_concept := lit "Audit"; concepts := [];
              text := lit "What is audit risk?" |} in
  round_trippable d = true /\
  get_question_by_id ascii_lower (ranked_backend ranking_case) (lit " q_001 ") []
  = (Ok (Some {| h_id := lit "Q_001"; h_text := lit "What is audit risk?";
                 h_main_concept := lit "Audit"; h_concepts := [];
                 h_score := 1%Z |}),
     [(lit " q_001 ", 10%Z)]).
Proof.
  intros d.
  assert (H : round_trippable d = true) by (vm_compute; reflexivity).
  split; [exact H|].
  exact (@id_lookup_finds_ingested Z ascii_lower (ranked_backend ranking_case) d
           (sample_context d) (firstn 2 ranking_case) [] (lit " q_001 ") []
           H eq_refl eq_refl eq_refl eq_refl).
Defined.

(* ================================================================== *)
(** * Further properties: ingestion *)
(* ================================================================== *)

(** X10.  Outcomes of [load_raw_metadata].  It returns data exactly when
    the file is present and parses to a JSON object whose [questions]
    member is an array, and then returns the parsed data unchanged; it
    raises [FileNotFoundError] exactly when the file is absent; for a file
    that parses to an object it raises [ValueError] exactly when the
    [questions] member is missing or is not an array. *)
Theorem load_outcomes (f : input_file) :
  (forall data, load_raw_metadata f = Ok data <->
     f = File (Some data) /\
     exists members items, data = JObject members /\
       lookup (lit "questions") members = Some (JArray items)) /\
  (load_raw_metadata f = Raise FileNotFoundError <-> f = NoFile) /\
  (forall members, f = File (Some (JObject members)) ->
     (load_raw_metadata f = Raise ValueError <->
      ~ exists items, lookup (lit "questions") members = Some (JArray items))).
Proof.
  split; [|split].
  - intros data. split.
    + destruct f as [|[v|]]; try discriminate.
      destruct v; unfold load_raw_metadata; simpl; try discriminate.
      * destruct (contains (lit "questions") s); discriminate.
      * destruct (existsb (is_JString (lit "questions")) items); discriminate.
      * destruct (lookup (lit "questions") members) as [v|] eqn:L; simpl;
          [|discriminate].
        destruct v; simpl; try discriminate.
        intros H. injection H as <-. split; [reflexivity|]. eauto.
    + intros [-> [members [items [-> L]]]]. rewrite load_object, L. reflexivity.
  - split; [|intros ->; reflexivity].
    destruct f as [|[v|]]; [reflexivity| |discriminate].
    destruct v; unfold load_raw_metadata; simpl; try discriminate.
    + destruct (contains (lit "questions") s); discriminate.
    + destruct (existsb (is_JString (lit "questions")) items); discriminate.
    + destruct (lookup (lit "questions") members) as [v|]; simpl; [|discriminate].
      destruct v; discriminate.
  - intros members ->. rewrite load_object.
    destruct (lookup (lit "questions") members) as [v|] eqn:L.
    + destruct v; split; try discriminate;
        try (intros _ [items H]; discriminate H);
        try (intros _; reflexivity).
      intros H. exfalso. apply H. eauto.
    + split; [intros _ [items H]; discriminate H | reflexivity].
Qed.

Lemma load_outcomes_witness :
  load_raw_metadata (File (Some (JObject [(lit "questions", JArray [])]))) =
  Ok (JObject [(lit "questions", JArray [])]) /\
  load_raw_metadata (File (Some (JObject [(lit "questions", JNull)]))) =
  Raise ValueError.
Proof.
  split.
  - apply (proj1 (load_outcomes _)). split; [reflexivity|].
    exists [(lit "questions", JArray [])], []. split; reflexivity.
  - apply (proj2 (proj2 (load_outcomes _)) [(lit "questions", JNull)] eq_refl).
    intros [items H]. discriminate H.
Defined.

Lemma normalize_item_id (idx : nat) (item : Item) :
  e_id (normalize_item idx item) = Some (lit "q_" ++ format_03d idx).
Proof.
  unfold normalize_item. destruct (py_or (get (matches item) []) []); reflexivity.
Qed.

(** X11.  [normalize_metadata] never assigns an id twice: the ids of the
    records it writes are pairwise distinct, however many items there
    are. *)
Theorem normalize_ids_unique (raw : RawMetadata) :
  NoDup (map e_id (normalize_metadata raw)).
Proof.
  apply NoDup_nth_error. intros i j Hi E.
  rewrite !nth_error_map, !normalize_metadata_nth in E.
  rewrite length_map in Hi. unfold normalize_metadata in Hi.
  rewrite normalize_loop_length in Hi.
  destruct (nth_error (get (questions raw) []) i) as [a|] eqn:A;
    [|apply nth_error_None in A; lia].
  destruct (nth_error (get (questions raw) []) j) as [b|]; [|discriminate].
  simpl in E. rewrite !normalize_item_id in E. injection E as E.
  assert (N : id_number (lit "q_" ++ format_03d (S i)) =
              id_number (lit "q_" ++ format_03d (S j))) by (rewrite E; reflexivity).
  rewrite !id_number_format in N. injection N as N. exact N.
Qed.

(** ** What ingestion writes, decoding reads back *)

Lemma filter_idem {A : Type} (p : A -> bool) (l : list A) :
  filter p (filter p l) = filter p l.
Proof.
  induction l as [|x l IH]; [reflexivity|]. simpl.
  destruct (p x) eqn:E; [|exact IH]. simpl. rewrite E, IH. reflexivity.
Qed.

Lemma block_of_document_of (e : Entry) : block_of e = encode (document_of e).
Proof.
  unfold encode. rewrite !block_of_format. unfold document_of, entry_of.
  cbn [e_id e_main_concept e_concepts e_text get id main_concept concepts text].
  rewrite !strip_idem, filter_idem. reflexivity.
Qed.

Lemma uint_digits_are_digits (u : Decimal.uint) :
  forallb is_digit (uint_digits u) = true.
Proof. induction u; simpl; try reflexivity; exact IHu. Qed.

Lemma format_03d_digits (n : nat) : forallb is_digit (format_03d n) = true.
Proof.
  unfold format_03d, format_d. rewrite forallb_app, uint_digits_are_digits.
  rewrite andb_true_r. induction (3 - length (uint_digits (Nat.to_uint n)));
    [reflexivity | exact IHn0].
Qed.

Lemma format_03d_length (n : nat) : 3 <= length (format_03d n).
Proof.
  unfold format_03d. cbv zeta. rewrite length_app, repeat_length.
  assert (G : forall a b : nat, a = b -> 3 <= 3 - a + b) by (intros; lia).
  apply G. reflexivity.
Qed.

Lemma digit_plain (c : char) :
  is_digit c = true ->
  is_linebreak c = false /\ isspace c = false /\ N.eqb c 93 = false.
Proof.
  unfold is_digit. intros H. apply andb_true_iff in H as [H1 H2].
  apply N.leb_le in H1. apply N.leb_le in H2.
  assert (G : forall l : list char,
              forallb (fun k => N.ltb k 48 || N.ltb 57 k) l = true ->
              existsb (N.eqb c) l = false).
  { intros l Hl. induction l as [|k l IH]; [reflexivity|]. simpl in *.
    apply andb_true_iff in Hl as [Hk Hl]. rewrite IH by exact Hl.
    rewrite orb_false_r. apply N.eqb_neq.
    apply orb_true_iff in Hk as [Hk | Hk]; apply N.ltb_lt in Hk; lia. }
  split; [|split].
  - apply G. reflexivity.
  - apply G. reflexivity.
  - apply N.eqb_neq. lia.
Qed.

Lemma last_of_all (p : char -> bool) (prefix x : str) :
  forallb p x = true -> x <> [] ->
  match rev (prefix ++ x) with [] => False | c :: _ => p c = true end.
Proof.
  intros Hp Hx. rewrite rev_app_distr.
  destruct (rev x) as [|c r] eqn:E.
  - apply (f_equal (@rev char)) in E. rewrite rev_involutive in E. contradiction.
  - simpl. rewrite forallb_forall in Hp. apply Hp. apply in_rev.
    rewrite E. left. reflexivity.
Qed.

(** The ids [normalize_metadata] generates survive the bracket syntax. *)
Lemma generated_id_safe (idx : nat) :
  header_safe (lit "q_" ++ format_03d idx) = true.
Proof.
  pose proof (format_03d_digits idx) as D.
  assert (Hne : format_03d idx <> []).
  { pose proof (format_03d_length idx) as L.
    destruct (format_03d idx); [simpl in L; lia | discriminate]. }
  pose proof (@last_of_all is_digit (lit "q_") (format_03d idx) D Hne) as Hlast.
  unfold header_safe. apply andb_true_iff. split; [apply andb_true_iff; split|].
  - rewrite no_linebreak_app. apply andb_true_iff. split; [reflexivity|].
    unfold no_linebreak. apply forallb_forall. intros c Hc.
    rewrite forallb_forall in D. apply D in Hc.
    apply digit_plain in Hc as [-> _]. reflexivity.
  - apply str_eqb_eq. apply strip_of_fixed.
    + apply lstrip_by_fixed. reflexivity.
    + apply rstrip_by_fixed.
      destruct (rev (lit "q_" ++ format_03d idx)); [exact I|].
      apply digit_plain in Hlast as [_ [H _]]. exact H.
  - apply str_eqb_eq. unfold rstrip. apply rstrip_by_fixed.
    destruct (rev (lit "q_" ++ format_03d idx)); [exact I|].
    apply digit_plain in Hlast as [_ [_ H]]. simpl. rewrite H. reflexivity.
Qed.

(** X12.  A normalized dict and its fragment.  [build_corpus_text] writes
    a dict with absent keys at their defaults, id, main concept and text
    trimmed and empty concepts dropped; when the Document so written is
    round-trippable, decoding the block returns exactly that Document, so
    the round trip loses nothing but the whitespace around the fields. *)
Theorem entry_roundtrip (e : Entry) :
  round_trippable (document_of e) = true ->
  _parse_block (block_of e) = Ok (document_of e) /\
  _parse_block (build_corpus_text [e]) = Ok (document_of e).
Proof.
  intros H. rewrite block_of_document_of. split.
  - rewrite <- (app_nil_r (encode (document_of e))).
    apply decode_encoded; [exact H | reflexivity].
  - unfold build_corpus_text. simpl blocks_loop. cbn [join].
    rewrite (bracketed_strip (block_of_bracketed e)), block_of_document_of.
    apply decode_encoded; [exact H | reflexivity].
Qed.

Lemma entry_roundtrip_witness :
  let e := {| e_id := Some (lit " q_007 "); e_text := Some (lit " Why? ");
              e_main_concept := None; e_concepts := Some [lit "Audit"; []] |} in
  round_trippable (document_of e) = true /\
  _parse_block (block_of e) =
  Ok {| id := lit "q_007"; main_concept := UNKNOWN; concepts := [lit "Audit"];
        text := lit "Why?" |}.
Proof.
  intros e.
  assert (H : round_trippable (document_of e) = true) by (vm_compute; reflexivity).
  split; [exact H | exact (proj1 (entry_roundtrip e H))].
Defined.

(** X13.  Ingestion and decoding compose.  For the record
    [normalize_metadata] writes at position [i], if its trimmed main
    concept, its concepts and its text are safe, then decoding its block,
    alone or followed by the rest of the blob, returns the record's
    Document, whose id is [q_] followed by [i + 1] zero-padded to three
    digits; the generated id never stands in the way. *)
Theorem ingested_item_roundtrip (raw : RawMetadata) (i : nat) (e : Entry) :
  nth_error (normalize_metadata raw) i = Some e ->
  header_safe (main_concept (document_of e)) = true ->
  concepts_safe (concepts (document_of e)) = true ->
  text_safe (text (document_of e)) = true ->
  id (document_of e) = lit "q_" ++ format_03d (S i) /\
  _parse_block (block_of e) = Ok (document_of e) /\
  (forall rest, _parse_block (block_of e ++ [LF] ++ rest) = Ok (document_of e)).
Proof.
  intros Hi Hm Hc Ht. rewrite normalize_metadata_nth in Hi.
  destruct (nth_error (get (questions raw) []) i) as [item|]; [|discriminate].
  simpl in Hi. injection Hi as <-.
  assert (Hid : id (document_of (normalize_item (S i) item)) =
                lit "q_" ++ format_03d (S i)).
  { unfold document_of. cbn [id]. rewrite normalize_item_id. simpl get.
    pose proof (generated_id_safe (S i)) as G.
    apply header_safe_spec in G as [_ [G _]]. exact G. }
  assert (R : round_trippable (document_of (normalize_item (S i) item)) = true).
  { unfold round_trippable. rewrite Hid, generated_id_safe, Hm, Hc, Ht.
    reflexivity. }
  split; [exact Hid|]. rewrite block_of_document_of. split.
  - rewrite <- (app_nil_r (encode _)). apply decode_encoded; [exact R | reflexivity].
  - intros rest. apply decode_chunk. exact R.
Qed.

Lemma ingested_item_roundtrip_witness :
  exists e, nth_error (normalize_metadata sample_raw) 0 = Some e /\
    _parse_block (block_of e) =
    Ok {| id := lit "q_001"; main_concept := lit "Risk";
          concepts := [lit "Risk"; lit "Audit"]; text := lit "What is risk?" |}.
Proof.
  exists (normalize_item 1 (sample_item (lit " What is risk? ")
            [lit "Risk"; lit "Audit"; []; lit "Control"; lit "SSBR"])).
  split; [reflexivity|].
  exact (proj1 (proj2 (@ingested_item_roundtrip sample_raw 0 _ eq_refl
                         eq_refl eq_refl eq_refl))).
Defined.

Lemma format_03d_width_small :
  forallb (fun n => Nat.eqb (length (format_03d n)) 3) (seq 0 1000) = true.
Proof. vm_compute. reflexivity. Qed.

(** X14.  Shape of the generated ids.  The id of the record at position
    [i] is [q_] followed by decimal digits only, at least three of them,
    and exactly three as long as the position is below 999 (items 1 to
    999). *)
Theorem generated_id_shape (raw : RawMetadata) (i : nat) (e : Entry) :
  nth_error (normalize_metadata raw) i = Some e ->
  exists digits,
    e_id e = Some (lit "q_" ++ digits) /\
    forallb is_digit digits = true /\
    3 <= length digits /\
    (i < 999 -> length digits = 3).
Proof.
  intros Hi. rewrite normalize_metadata_nth in Hi.
  destruct (nth_error (get (questions raw) []) i) as [item|]; [|discriminate].
  simpl in Hi. injection Hi as <-.
  exists (format_03d (S i)). split; [apply normalize_item_id|].
  split; [apply format_03d_digits|]. split; [apply format_03d_length|].
  intros Hlt. pose proof format_03d_width_small as W.
  rewrite forallb_forall in W. apply Nat.eqb_eq. apply W.
  apply in_seq. lia.
Qed.

(** The thousandth item gets a four-digit id. *)
Example generated_id_thousand : format_03d 1000 = lit "1000".
Proof. vm_compute. reflexivity. Qed.

Lemma generated_id_shape_witness :
  exists digits,
    e_id (normalize_item 12 (sample_item (lit "Why?") [lit "Audit"])) =
    Some (lit "q_" ++ digits) /\ length digits = 3.
Proof.
  destruct (@generated_id_shape sample_raw 11 _ eq_refl)
    as [digits [H1 [_ [_ H4]]]].
  exists digits. split; [exact H1 | apply H4; lia].
Defined.

Lemma nth_error_firstn_lt {A : Type} (l : list A) (n i : nat) :
  i < n -> nth_error (firstn n l) i = nth_error l i.
Proof.
  revert l i. induction n as [|n IH]; intros l i Hi; [lia|].
  destruct l as [|x l]; [destruct i; reflexivity|].
  destruct i as [|i]; [reflexivity|]. simpl. apply IH. lia.
Qed.

(** X15.  The header fields are read by position only.  Two inputs with
    the same first three lines decode to the same id, main concept and
    concepts, whatever follows and wherever a [---] line stands, even
    among those three lines. *)
Theorem header_read_by_position (raw1 raw2 : str) :
  firstn 3 (splitlines raw1) = firstn 3 (splitlines raw2) ->
  exists d1 d2,
    _parse_block raw1 = Ok d1 /\ _parse_block raw2 = Ok d2 /\
    id d1 = id d2 /\ main_concept d1 = main_concept d2 /\
    concepts d1 = concepts d2.
Proof.
  intros H.
  assert (N : forall i, i < 3 ->
                nth_error (splitlines raw1) i = nth_error (splitlines raw2) i).
  { intros i Hi. rewrite <- (nth_error_firstn_lt (splitlines raw1) Hi).
    rewrite <- (nth_error_firstn_lt (splitlines raw2) Hi). rewrite H. reflexivity. }
  destruct (splitlines raw1) as [|a l1] eqn:E1;
    destruct (splitlines raw2) as [|b l2] eqn:E2; try discriminate H.
  - do 2 eexists. split; [apply parse_block_no_lines; exact E1|].
    split; [apply parse_block_no_lines; exact E2|]. repeat split.
  - do 2 eexists. split; [apply parse_block_lines; rewrite E1; discriminate|].
    split; [apply parse_block_lines; rewrite E2; discriminate|].
    rewrite E1, E2. cbn [id main_concept concepts].
    rewrite (N 0), (N 1), (N 2) by lia. repeat split.
Qed.

Lemma header_read_by_position_witness :
  exists d1 d2,
    _parse_block (lit "[ID: q_001]" ++ [LF] ++ lit "---" ++ [LF]
                  ++ lit "[CONCEPTS: Risk]" ++ [LF] ++ lit "tail") = Ok d1 /\
    _parse_block (lit "[ID: q_001]" ++ [LF] ++ lit "---" ++ [LF]
                  ++ lit "[CONCEPTS: Risk]") = Ok d2 /\
    id d1 = id d2 /\ main_concept d1 = main_concept d2 /\
    concepts d1 = concepts d2.
Proof.
  apply header_read_by_position. vm_compute. reflexivity.
Defined.
